(** * QuickNote Timer: a shallow embedding of [src/App.jsx]

    The component keeps five pieces of React state ([seconds], [isRunning],
    [note], [sessions], [theme]), persists two of them in [localStorage] and
    derives per-task statistics from the session list on every render.

    Conventions of the embedding.
    - A JavaScript string is a Rocq [string] whose characters are read as
      UTF-16 code units below 256 (the Latin-1 range).  On that range
      [trim] and [toLowerCase] are the functions of ECMA-262.
    - A JavaScript number that the component itself produces is an integer
      and is a [Z].  The arithmetic of [Z] is the arithmetic of the
      component's IEEE doubles on the safe integers only (absolute value
      at most [maxSafeInteger], 2^53 - 1), where doubles add,
      divide-and-floor, take remainders and print without rounding.
      Statements whose truth depends on the size of a number carry that
      bound as a hypothesis.  A number read back from storage is a
      rational [Q].
    - [JSON.parse] and [JSON.stringify] are platform functions and form the
      class [Json]; the clock readings [Date.now()] and [toISOString()]
      are arguments of the save action.
    - [localStorage] is a finite map from keys to strings together with the
      operations that raise and the list of calls made; handlers and
      effects run in a small state-and-exception monad over it. *)

From Stdlib Require Import ZArith QArith Ascii String List Lia.
From stdpp Require Import base option list gmap strings.

Local Open Scope string_scope.
Local Open Scope Z_scope.

(** ** JavaScript strings *)

Module JsString.

Definition code (c : ascii) : Z := Z.of_nat (nat_of_ascii c).

Definition ofCode (n : Z) : ascii := ascii_of_nat (Z.to_nat n).

(** ECMA-262 WhiteSpace and LineTerminator code points below 256:
    TAB, LF, VT, FF, CR, SP and NBSP. *)
Definition isWhiteSpace (c : ascii) : bool :=
  let n := code c in
  ((9 <=? n) && (n <=? 13)) || (n =? 32) || (n =? 160).

Fixpoint allWhiteSpace (s : string) : bool :=
  match s with
  | EmptyString => true
  | String c r => isWhiteSpace c && allWhiteSpace r
  end.

Fixpoint trimStart (s : string) : string :=
  match s with
  | EmptyString => EmptyString
  | String c r => if isWhiteSpace c then trimStart r else s
  end.

(** Drops the trailing run of white space: a character is kept when it
    is not white space or when something survives after it. *)
Fixpoint trimEnd (s : string) : string :=
  match s with
  | EmptyString => EmptyString
  | String c r =>
      match trimEnd r with
      | EmptyString => if isWhiteSpace c then EmptyString else String c EmptyString
      | String d r' => String c (String d r')
      end
  end.

(** [String.prototype.trim] *)
Definition trim (s : string) : string := trimEnd (trimStart s).

(** [String.prototype.toLowerCase] on one code unit below 256: the
    letters A-Z and the Latin-1 capitals U+00C0-U+00DE, except the
    multiplication sign U+00D7, move up by 32. *)
Definition lowerChar (c : ascii) : ascii :=
  let n := code c in
  if ((65 <=? n) && (n <=? 90))
     || ((192 <=? n) && (n <=? 222) && negb (n =? 215))
  then ofCode (n + 32) else c.

Fixpoint toLowerCase (s : string) : string :=
  match s with
  | EmptyString => EmptyString
  | String c r => String (lowerChar c) (toLowerCase r)
  end.

(** The filler of [padStart]: [n] characters read cyclically from [pad];
    [cur] is what is left of the current copy. *)
Fixpoint filler (n : nat) (pad cur : string) : string :=
  match n with
  | O => EmptyString
  | S k =>
      match cur with
      | String c r => String c (filler k pad r)
      | EmptyString =>
          match pad with
          | String c r => String c (filler k pad r)
          | EmptyString => EmptyString
          end
      end
  end.

(** [String.prototype.padStart(targetLength, padString)] *)
Definition padStart (targetLength : nat) (padString s : string) : string :=
  if (targetLength <=? String.length s)%nat then s
  else filler (targetLength - String.length s) padString padString ++ s.

Definition digitChar (d : Z) : ascii := ofCode (48 + d).

(** Decimal digits of a non-negative integer, most significant first.
    The fuel is the binary logarithm, which bounds the number of
    decimal digits. *)
Fixpoint decimalGo (fuel : nat) (n : Z) (acc : string) : string :=
  let acc' := String (digitChar (n mod 10)) acc in
  match fuel with
  | O => acc'
  | S f => if n <? 10 then acc' else decimalGo f (n / 10) acc'
  end.

Definition decimal (n : Z) : string :=
  decimalGo (Z.to_nat (Z.log2 n)) n EmptyString.

(** [String(n)] for a safe integer [n]: all its digits, with a sign.
    Beyond 2^53 a JavaScript number is a double that need not be the
    integer meant, and [String] prints the shortest digits that read back
    as that double (from 10^21 on in exponent form); [ofInt] says nothing
    about those. *)
Definition ofInt (n : Z) : string :=
  if n <? 0 then String "-" (decimal (- n)) else decimal n.

(** Reading a digit string back, used to state what [formatTime] prints. *)
Definition isDigit (c : ascii) : bool := (48 <=? code c) && (code c <=? 57).

Fixpoint allDigits (s : string) : bool :=
  match s with
  | EmptyString => true
  | String c r => isDigit c && allDigits r
  end.

Fixpoint valueFrom (a : Z) (s : string) : Z :=
  match s with
  | EmptyString => a
  | String c r => valueFrom (10 * a + (code c - 48)) r
  end.

Definition value (s : string) : Z := valueFrom 0 s.

End JsString.

Import JsString.

(** ** Safe integers *)

(** [Number.MAX_SAFE_INTEGER].  Every integer up to here is a double, and
    a sum, a floored quotient by 3600 or 60 and a remainder of such
    integers is computed by the doubles without rounding as long as the
    result stays in the range. *)
Definition maxSafeInteger : Z := 2 ^ 53 - 1.

(** ** [formatTime] (App.jsx, lines 4-9) *)

(** [Math.floor(a / b)] for integers and a positive divisor is [Z.div];
    JavaScript's [%] truncates towards zero and is [Z.rem].  This is what
    the code computes for [seconds] up to [maxSafeInteger]: the quotient
    of the doubles is then within 2^-12 of the exact one, which is an
    integer or at least 1/3600 below the next one, so the floor is the
    exact floor.  For larger arguments the code works on rounded doubles
    and [formatTime] is not a model of it. *)
Definition formatTime (seconds : Z) : string :=
  let hrs := padStart 2 "0" (ofInt (seconds / 3600)) in
  let mins := padStart 2 "0" (ofInt (Z.rem seconds 3600 / 60)) in
  let secs := padStart 2 "0" (ofInt (Z.rem seconds 60)) in
  hrs ++ ":" ++ mins ++ ":" ++ secs.

(** ** JavaScript values held by the component *)

(** The values that can sit in the [sessions] state: what [JSON.parse]
    returns and what the handlers build.  An object lists its own
    properties, each name once. *)
#[warnings="-register-all"]
Inductive jsval : Type :=
| JNull
| JBool (b : bool)
| JNum (q : Q)
| JStr (s : string)
| JArr (elems : list jsval)
| JObj (props : list (string * jsval)).

(** The result of an evaluation that may raise an exception. *)
Inductive outcome (A : Type) : Type :=
| Ok (a : A)
| Throw.
Arguments Ok {A} a.
Arguments Throw {A}.

Fixpoint ownProp (props : list (string * jsval)) (k : string) : option jsval :=
  match props with
  | [] => None
  | (k', v) :: rest => if String.eqb k' k then Some v else ownProp rest k
  end.

(** [v.k] for the property names the component reads ([id], [note],
    [durationSeconds], [createdAt]), none of which lives on a built-in
    prototype: reading from [null] raises a TypeError, any other value
    without the own property gives [undefined] ([None]). *)
Definition getProp (v : jsval) (k : string) : outcome (option jsval) :=
  match v with
  | JNull => Throw
  | JObj props => Ok (ownProp props k)
  | _ => Ok None
  end.

(** [a !== b] where [b] is a number: [undefined] and values of another
    type differ from every number. *)
Definition strictNeqNum (a : option jsval) (b : Z) : bool :=
  match a with
  | Some (JNum q) => negb (Qeq_bool q (inject_Z b))
  | _ => true
  end.

(** A session record as [handleSaveSession] builds it. *)
Module Session.
Record t : Type := mk
  { id : Z; note : string; durationSeconds : Z; createdAt : string }.

Definition toJs (s : t) : jsval :=
  JObj [ ("id", JNum (inject_Z (id s)));
         ("note", JStr (note s));
         ("durationSeconds", JNum (inject_Z (durationSeconds s)));
         ("createdAt", JStr (createdAt s)) ].

Definition listToJs (l : list t) : jsval := JArr (map toJs l).
End Session.

(** ** Component state (App.jsx, lines 12-16) *)

Record State : Type := mkState
  { seconds : Z;
    isRunning : bool;
    note : string;
    sessions : jsval;
    theme : string }.

Definition initialState : State :=
  {| seconds := 0; isRunning := false; note := ""; sessions := JArr []; theme := "dark" |}.

(** ** The persistence layer: [window.localStorage] *)

Inductive event : Type :=
| GetItem (key : string)
| SetItem (key value : string)
| RemoveItem (key : string).

Definition eventKey (e : event) : string :=
  match e with
  | GetItem k | SetItem k _ | RemoveItem k => k
  end.

(** The stored items, which of the three operations raise, and the calls
    made so far (oldest first). *)
Record Storage : Type := mkStorage
  { items : gmap string string;
    getThrows : bool;
    setThrows : bool;
    removeThrows : bool;
    log : list event }.

Definition record (e : event) (d : Storage) : Storage :=
  {| items := items d; getThrows := getThrows d; setThrows := setThrows d;
     removeThrows := removeThrows d; log := log d ++ [e] |}.

Definition withItems (m : gmap string string) (d : Storage) : Storage :=
  {| items := m; getThrows := getThrows d; setThrows := setThrows d;
     removeThrows := removeThrows d; log := log d |}.

(** ** Effects

    A handler or an effect reads the state of the render that created it
    and queues state updates; the queue is applied to [next].  [fresh]
    records that [setSessions] ran: every value it is given in App.jsx is
    a newly built one, so React sees a change.  [failed] records an
    updater that raised, which React reports as a render error. *)
Record Mem : Type := mkMem
  { next : State;
    fresh : bool;
    failed : bool;
    store : Storage }.

Definition M (A : Type) : Type := Mem -> outcome A * Mem.

#[global] Instance M_ret : MRet M := fun A a m => (Ok a, m).

#[global] Instance M_bind : MBind M := fun A B f c m =>
  match c m with
  | (Ok a, m') => f a m'
  | (Throw, m') => (Throw, m')
  end.

Definition raise {A : Type} : M A := fun m => (Throw, m).

(** [try { body } catch (err) { console.error(...) }] *)
Definition tryCatch (body : M unit) : M unit := fun m =>
  match body m with
  | (_, m') => (Ok tt, m')
  end.

Definition onStore (f : Storage -> Storage) (m : Mem) : Mem :=
  {| next := next m; fresh := fresh m; failed := failed m; store := f (store m) |}.

Definition onState (f : State -> State) (m : Mem) : Mem :=
  {| next := f (next m); fresh := fresh m; failed := failed m; store := store m |}.

Definition getItem (k : string) : M (option string) := fun m =>
  let m' := onStore (record (GetItem k)) m in
  if getThrows (store m) then (Throw, m') else (Ok (items (store m) !! k), m').

Definition setItem (k v : string) : M unit := fun m =>
  let m' := onStore (record (SetItem k v)) m in
  if setThrows (store m) then (Throw, m')
  else (Ok tt, onStore (fun d => withItems (<[k := v]> (items d)) d) m').

Definition removeItem (k : string) : M unit := fun m =>
  let m' := onStore (record (RemoveItem k)) m in
  if removeThrows (store m) then (Throw, m')
  else (Ok tt, onStore (fun d => withItems (delete k (items d)) d) m').

Definition setSeconds (f : Z -> Z) : M unit := fun m =>
  (Ok tt, onState (fun s => {| seconds := f (seconds s); isRunning := isRunning s;
                               note := note s; sessions := sessions s; theme := theme s |}) m).

Definition setIsRunning (b : bool) : M unit := fun m =>
  (Ok tt, onState (fun s => {| seconds := seconds s; isRunning := b;
                               note := note s; sessions := sessions s; theme := theme s |}) m).

Definition setNote (v : string) : M unit := fun m =>
  (Ok tt, onState (fun s => {| seconds := seconds s; isRunning := isRunning s;
                               note := v; sessions := sessions s; theme := theme s |}) m).

Definition setTheme (f : string -> string) : M unit := fun m =>
  (Ok tt, onState (fun s => {| seconds := seconds s; isRunning := isRunning s;
                               note := note s; sessions := sessions s; theme := f (theme s) |}) m).

Definition setSessions (f : jsval -> outcome jsval) : M unit := fun m =>
  match f (sessions (next m)) with
  | Ok v =>
      (Ok tt,
       {| next := {| seconds := seconds (next m); isRunning := isRunning (next m);
                     note := note (next m); sessions := v; theme := theme (next m) |};
          fresh := true; failed := failed m; store := store m |})
  | Throw =>
      (Ok tt, {| next := next m; fresh := fresh m; failed := true; store := store m |})
  end.

(** ** Platform functions *)

(** [JSON.parse] returns [None] where it raises a SyntaxError. *)
Class Json : Type :=
  { JSON_parse : string -> option jsval;
    JSON_stringify : jsval -> string }.

(** ** Rendering (App.jsx, lines 117-148 and the JSX that follows)

    What the render body can raise.  [sessions.reduce] needs an array;
    [session.note.toLowerCase()] needs a non-null element whose [note] is a
    string.  The sum [+= session.durationSeconds], [formatTime],
    [new Date(session.createdAt)] and the list key [session.id] convert
    their operand to a primitive, which raises a TypeError on an object
    that has an own property [toString] (a parsed value is never
    callable) and on an array that holds such an object.  Nothing else in
    the render body raises. *)
Fixpoint hasOwn (props : list (string * jsval)) (k : string) : bool :=
  match props with
  | [] => false
  | (k', _) :: rest => String.eqb k' k || hasOwn rest k
  end.

Fixpoint unconvertible (v : jsval) : bool :=
  match v with
  | JObj props => hasOwn props "toString"
  | JArr elems => existsb unconvertible elems
  | _ => false
  end.

Definition convertible (o : option jsval) : bool :=
  match o with
  | Some v => negb (unconvertible v)
  | None => true
  end.

Definition fieldsConvert (session : jsval) : bool :=
  match getProp session "durationSeconds", getProp session "createdAt",
        getProp session "id" with
  | Ok d, Ok c, Ok i => convertible d && convertible c && convertible i
  | _, _, _ => false
  end.

Definition noteKey (session : jsval) : outcome string :=
  match getProp session "note" with
  | Ok (Some (JStr s)) => if fieldsConvert session then Ok (toLowerCase s) else Throw
  | _ => Throw
  end.

Fixpoint reduceKeys (l : list jsval) : outcome (list string) :=
  match l with
  | [] => Ok []
  | session :: rest =>
      match noteKey session with
      | Throw => Throw
      | Ok k =>
          match reduceKeys rest with
          | Throw => Throw
          | Ok ks => Ok (k :: ks)
          end
      end
  end.

Definition render (s : State) : outcome (list string) :=
  match sessions s with
  | JArr l => reduceKeys l
  | _ => Throw
  end.

Definition renders (s : State) : bool :=
  match render s with
  | Ok _ => true
  | Throw => false
  end.

(** ** Task averages (App.jsx, lines 118-135) on session records *)

Record TaskEntry : Type := mkEntry
  { name : string; totalSeconds : Z; count : Z }.

(** The accumulator is a plain object literal: [acc[key]] finds an own
    property, or else what [Object.prototype] offers under that name.  A
    lower-cased key can only meet [constructor] and [__proto__] there (the
    other inherited names contain capitals), and both are objects. *)
Inductive slot : Type :=
| Own (e : TaskEntry)
| Inherited
| Undefined.

Definition inheritedKey (key : string) : bool :=
  String.eqb key "constructor" || String.eqb key "__proto__".

Definition accGet (acc : gmap string TaskEntry) (key : string) : slot :=
  match acc !! key with
  | Some e => Own e
  | None => if inheritedKey key then Inherited else Undefined
  end.

(** One call of the reducer.  When [acc[key]] is an inherited object the
    two [+=] land on that object and [acc] keeps its own properties.
    The two [+=] are additions of doubles; they are the additions of [Z]
    written here as long as the sums are safe integers (see
    [safeDurations]). *)
Definition taskStatsStep (acc : gmap string TaskEntry) (session : Session.t)
  : gmap string TaskEntry :=
  let key := toLowerCase (Session.note session) in
  let acc1 :=
    match accGet acc key with
    | Undefined =>
        <[key := {| name := Session.note session; totalSeconds := 0; count := 0 |}]> acc
    | _ => acc
    end in
  match accGet acc1 key with
  | Own e =>
      <[key := {| name := name e;
                  totalSeconds := totalSeconds e + Session.durationSeconds session;
                  count := count e + 1 |}]> acc1
  | _ => acc1
  end.

Definition taskStatsMap (sessions : list Session.t) : gmap string TaskEntry :=
  fold_left taskStatsStep sessions ∅.

Record TaskStat : Type := mkStat
  { task : TaskEntry; averageSeconds : Q }.

(** [task.totalSeconds / task.count] (line 134).  The code's value is the
    double nearest to this quotient; the two agree when the quotient is
    itself a double, as in the examples below, and nothing else is stated
    about the average. *)
Definition withAverage (t : TaskEntry) : TaskStat :=
  {| task := t;
     averageSeconds := (inject_Z (totalSeconds t) / inject_Z (count t))%Q |}.

(** [Object.values(taskStatsMap).map(...)], kept as a map from the group
    key: the order of the array plays no part below. *)
Definition taskStats (sessions : list Session.t) : gmap string TaskStat :=
  withAverage <$> taskStatsMap sessions.

(** ** Handlers and effects *)

Definition themeKey : string := "quicknote_theme".
Definition sessionsKey : string := "quicknote_sessions".

(** [[newSession, ...prev]]: an array or a string can be spread, anything
    else is not iterable. *)
Fixpoint chars (s : string) : list jsval :=
  match s with
  | EmptyString => []
  | String c r => JStr (String c EmptyString) :: chars r
  end.

Definition prepend (newSession : jsval) (prev : jsval) : outcome jsval :=
  match prev with
  | JArr l => Ok (JArr (newSession :: l))
  | JStr s => Ok (JArr (newSession :: chars s))
  | _ => Throw
  end.

(** [prev.filter((s) => s.id !== id)] *)
Fixpoint filterId (id : Z) (l : list jsval) : outcome (list jsval) :=
  match l with
  | [] => Ok []
  | s :: rest =>
      match getProp s "id" with
      | Throw => Throw
      | Ok v =>
          match filterId id rest with
          | Throw => Throw
          | Ok rest' => Ok (if strictNeqNum v id then s :: rest' else rest')
          end
      end
  end.

Definition withoutId (id : Z) (prev : jsval) : outcome jsval :=
  match prev with
  | JArr l =>
      match filterId id l with
      | Ok l' => Ok (JArr l')
      | Throw => Throw
      end
  | _ => Throw
  end.

Section Component.
Context `{Json}.

(** Lines 19-33. *)
Definition loadEffect : M unit :=
  tryCatch (
    storedTheme ← getItem themeKey;
    (match storedTheme with
     | Some t =>
         if String.eqb t "light" || String.eqb t "dark"
         then setTheme (fun _ => t) else mret tt
     | None => mret tt
     end) ≫= fun _ =>
    storedSessions ← getItem sessionsKey;
    match storedSessions with
    | Some (String c r) =>
        match JSON_parse (String c r) with
        | Some parsed => setSessions (fun _ => Ok parsed)
        | None => raise
        end
    | _ => mret tt
    end).

(** Lines 36-44; the class list of [<body>] is presentation. *)
Definition persistTheme (theme : string) : M unit :=
  tryCatch (setItem themeKey theme).

(** Lines 47-56. *)
Definition persistSessions (sessions : jsval) : M unit :=
  tryCatch (setItem sessionsKey (JSON_stringify sessions)).

Definition handleStart : M unit := setIsRunning true.

Definition handlePause : M unit := setIsRunning false.

Definition handleReset : M unit :=
  setIsRunning false ≫= fun _ => setSeconds (fun _ => 0).

(** Lines 82-98; [now] is [Date.now()] and [iso] is
    [new Date().toISOString()]. *)
Definition handleSaveSession (now : Z) (iso : string) (s : State) : M unit :=
  if seconds s =? 0 then mret tt
  else
    let cleanedNote :=
      match trim (note s) with
      | EmptyString => "Untitled session"
      | String c r => String c r
      end in
    let newSession :=
      Session.toJs {| Session.id := now; Session.note := cleanedNote;
                      Session.durationSeconds := seconds s;
                      Session.createdAt := iso |} in
    setSessions (prepend newSession) ≫= fun _ =>
    setNote "" ≫= fun _ =>
    setIsRunning false ≫= fun _ =>
    setSeconds (fun _ => 0).

(** Lines 100-102. *)
Definition handleDeleteSession (id : Z) : M unit :=
  setSessions (withoutId id).

(** Lines 104-111. *)
Definition handleClearAll : M unit :=
  setSessions (fun _ => Ok (JArr [])) ≫= fun _ =>
  tryCatch (removeItem sessionsKey).

(** Lines 113-115. *)
Definition toggleTheme : M unit :=
  setTheme (fun prev => if String.eqb prev "dark" then "light" else "dark").

(** The interval callback of lines 62-64. *)
Definition tick : M unit := setSeconds (fun prev => prev + 1).

(** ** The running component *)

Record World : Type := mkWorld
  { st : State;
    disk : Storage;
    alive : bool }.

Definition samePrimitives (a b : State) : bool :=
  (seconds a =? seconds b) && Bool.eqb (isRunning a) (isRunning b)
  && String.eqb (note a) (note b) && String.eqb (theme a) (theme b).

(** Applying the queued updates.  When every setter was given the value
    already in place React bails out and nothing is rendered.  Otherwise
    React renders the new state and then runs, in the order of their
    declaration, the effects whose dependency changed.  A render that
    raises unmounts the component (no error boundary is installed) and
    its effects do not run. *)
Definition commit (old : State) (m : Mem) : World :=
  if negb (fresh m || failed m) && samePrimitives old (next m)
  then {| st := old; disk := store m; alive := true |}
  else if failed m || negb (renders (next m))
  then {| st := next m; disk := store m; alive := false |}
  else
    let effects : M unit :=
      (if String.eqb (theme old) (theme (next m)) then mret tt
       else persistTheme (theme (next m))) ≫= fun _ =>
      (if fresh m then persistSessions (sessions (next m)) else mret tt) in
    {| st := next m; disk := store (snd (effects m)); alive := true |}.

Definition begin (s : State) (d : Storage) : Mem :=
  {| next := s; fresh := false; failed := false; store := d |}.

(** First render and the effects of lines 19-56, which all run once
    with the initial state before the loaded values are rendered. *)
Definition mount (d : Storage) : World :=
  let effects : M unit :=
    loadEffect ≫= fun _ =>
    persistTheme (theme initialState) ≫= fun _ =>
    persistSessions (sessions initialState) in
  commit initialState (snd (effects (begin initialState d))).

Inductive action : Type :=
| Start
| Pause
| Reset
| Tick
| TypeNote (v : string)
| Save (now : Z) (iso : string)
| Delete (id : Z)
| ClearAll
| ToggleTheme.

Definition handler (a : action) (s : State) : M unit :=
  match a with
  | Start => handleStart
  | Pause => handlePause
  | Reset => handleReset
  | Tick => if isRunning s then tick else mret tt
  | TypeNote v => setNote v
  | Save now iso => handleSaveSession now iso s
  | Delete id => handleDeleteSession id
  | ClearAll => handleClearAll
  | ToggleTheme => toggleTheme
  end.

Definition dispatch (w : World) (a : action) : World :=
  if alive w then commit (st w) (snd (handler a (st w) (begin (st w) (disk w))))
  else w.

Definition runActions (w : World) (l : list action) : World :=
  fold_left dispatch l w.

End Component.

(** The ids of the entries of a session array, [None] for [undefined]. *)
Definition idsOf (v : jsval) : list (option jsval) :=
  match v with
  | JArr l =>
      map (fun s => match getProp s "id" with Ok i => i | Throw => None end) l
  | _ => []
  end.

Definition emptyStorage : Storage :=
  {| items := ∅; getThrows := false; setThrows := false; removeThrows := false; log := [] |}.

(** An instance of the platform functions, to run the component on
    concrete stores.  [stringify] prints as [JSON.stringify] does for
    strings, integers, terminating decimal fractions (numbers are exact
    here, and of a size that JavaScript prints without an exponent),
    arrays and objects whose property names are not array indices; [parse]
    is a table of a few texts. *)
Module Sample.
Definition quote : string := String (ofCode 34) EmptyString.

Definition hexDigit (n : Z) : ascii :=
  if n <? 10 then ofCode (48 + n) else ofCode (87 + n).

(** Escapes of [QuoteJSONString]: the quotation mark, the backslash and
    the control characters. *)
Definition escapeChar (c : ascii) : string :=
  let n := code c in
  if n =? 34 then String (ofCode 92) quote
  else if n =? 92 then String c (String c EmptyString)
  else if n =? 8 then String (ofCode 92) "b"
  else if n =? 9 then String (ofCode 92) "t"
  else if n =? 10 then String (ofCode 92) "n"
  else if n =? 12 then String (ofCode 92) "f"
  else if n =? 13 then String (ofCode 92) "r"
  else if n <? 32
       then String (ofCode 92)
              ("u00" ++ String (hexDigit (n / 16)) (String (hexDigit (n mod 16)) EmptyString))
  else String c EmptyString.

Fixpoint escape (s : string) : string :=
  match s with
  | EmptyString => EmptyString
  | String c r => escapeChar c ++ escape r
  end.

Definition quoted (s : string) : string := quote ++ escape s ++ quote.

(** The least [k] with [d] dividing [10^k], if there is one below the
    fuel. *)
Fixpoint decimalPlaces (fuel : nat) (k : Z) (d : Z) : option Z :=
  if (10 ^ k) mod d =? 0 then Some k
  else match fuel with
       | O => None
       | S f => decimalPlaces f (k + 1) d
       end.

Fixpoint splitAt (n : nat) (s : string) : string * string :=
  match n, s with
  | S k, String c r => let (a, b) := splitAt k r in (String c a, b)
  | _, _ => (EmptyString, s)
  end.

Definition number (q : Q) : string :=
  let r := Qred q in
  let n := Qnum r in
  let d := Z.pos (Qden r) in
  if d =? 1 then ofInt n
  else match decimalPlaces (Z.to_nat (Z.log2 d)) 0 d with
       | None => "null"
       | Some k =>
           let digits := padStart (Z.to_nat k + 1) "0" (decimal (Z.abs n * (10 ^ k / d))) in
           let (whole, fraction) := splitAt (String.length digits - Z.to_nat k) digits in
           (if n <? 0 then "-" else "") ++ whole ++ "." ++ fraction
       end.

Fixpoint commaSeparated (l : list string) : string :=
  match l with
  | [] => EmptyString
  | [x] => x
  | x :: rest => x ++ "," ++ commaSeparated rest
  end.

Fixpoint stringify (v : jsval) : string :=
  match v with
  | JNull => "null"
  | JBool b => if b then "true" else "false"
  | JNum q => number q
  | JStr s => quoted s
  | JArr elems => "[" ++ commaSeparated (map stringify elems) ++ "]"
  | JObj props =>
      "{" ++ commaSeparated (map (fun p => quoted (fst p) ++ ":" ++ stringify (snd p)) props)
          ++ "}"
  end.

(** Two records that no save could have produced: no [createdAt], an
    empty note, a negative fractional and a zero duration, the same id
    twice. *)
Definition oddValue : jsval :=
  JArr [ JObj [ ("id", JNum 1); ("note", JStr ""); ("durationSeconds", JNum (-3 # 2)) ];
         JObj [ ("id", JNum 1); ("note", JStr "x"); ("durationSeconds", JNum 0) ] ].

Definition oddText : string := Eval vm_compute in stringify oddValue.

Definition parse (s : string) : option jsval :=
  if String.eqb s "[]" then Some (JArr [])
  else if String.eqb s "{}" then Some (JObj [])
  else if String.eqb s "null" then Some JNull
  else if String.eqb s oddText then Some oddValue
  else None.

Definition json : Json := {| JSON_parse := parse; JSON_stringify := stringify |}.
End Sample.

(** * Vocabulary of the statements *)

(** ** Printed times *)

(** What one printed field is: a digit string that reads back as [v]. *)
Definition field (s : string) (v : Z) : Prop :=
  allDigits s = true /\ value s = v.

(** ** Groups of sessions *)

(** [session.note.toLowerCase()] *)
Definition keyOf (s : Session.t) : string := toLowerCase (Session.note s).

(** The members of the group [k], in list order. *)
Definition members (k : string) (l : list Session.t) : list Session.t :=
  List.filter (fun s => String.eqb (keyOf s) k) l.

Definition sumSeconds (l : list Session.t) : Z :=
  fold_right (fun s a => Session.durationSeconds s + a) 0 l.

(** Session lists whose durations are non-negative and add up to a safe
    integer.  Every sum of durations that the component forms over such a
    list, in whatever order and over whatever part of it, is a safe
    integer, so that its additions of doubles are exact. *)
Definition safeDurations (l : list Session.t) : Prop :=
  List.Forall (fun s => 0 <= Session.durationSeconds s) l
  /\ sumSeconds l <= maxSafeInteger.

(** The entry of a group: the note of its first member as the name, the
    sum of the durations and the number of members. *)
Definition groupOf (k : string) (l : list Session.t) : option TaskEntry :=
  match members k l with
  | [] => None
  | first :: _ =>
      Some {| name := Session.note first;
              totalSeconds := sumSeconds (members k l);
              count := Z.of_nat (length (members k l)) |}
  end.

(** The two [+=] of the reducer. *)
Definition bump (e : TaskEntry) (s : Session.t) : TaskEntry :=
  {| name := name e;
     totalSeconds := totalSeconds e + Session.durationSeconds s;
     count := count e + 1 |}.

(** The entry the reducer opens for a key it meets for the first time. *)
Definition opened (s : Session.t) : TaskEntry :=
  {| name := Session.note s; totalSeconds := 0; count := 0 |}.

(** The reducer seen from one key. *)
Definition absorb (k : string) (o : option TaskEntry) (s : Session.t) : option TaskEntry :=
  if String.eqb (keyOf s) k then Some (bump (default (opened s) o) s) else o.

(** The notes [Read] (60 seconds) and [read] (120 seconds). *)
Definition readExample : list Session.t :=
  [ {| Session.id := 2; Session.note := "Read"; Session.durationSeconds := 60;
       Session.createdAt := "2024-01-01T10:00:00.000Z" |};
    {| Session.id := 1; Session.note := "read"; Session.durationSeconds := 120;
       Session.createdAt := "2024-01-01T09:00:00.000Z" |} ].

(** One session whose note is the name of an inherited property. *)
Definition constructorExample : list Session.t :=
  [ {| Session.id := 1; Session.note := "constructor"; Session.durationSeconds := 60;
       Session.createdAt := "2024-01-01T10:00:00.000Z" |} ].

(** ** Trimmed notes *)

(** No white space at the front, none at the back. *)
Definition startsClean (s : string) : bool :=
  match s with
  | EmptyString => true
  | String c _ => negb (isWhiteSpace c)
  end.

Fixpoint endsClean (s : string) : bool :=
  match s with
  | EmptyString => true
  | String c EmptyString => negb (isWhiteSpace c)
  | String _ r => endsClean r
  end.

(** The note of a saved session: what is left of the input between its
    leading and trailing white space, or the default label when nothing is
    left. *)
Definition savedNote (input cleaned : string) : Prop :=
  exists pre body post,
    input = pre ++ body ++ post
    /\ allWhiteSpace pre = true /\ allWhiteSpace post = true
    /\ startsClean body = true /\ endsClean body = true
    /\ (body = EmptyString -> cleaned = "Untitled session")
    /\ (body <> EmptyString -> cleaned = body).

(** ** Deleting *)

(** One entry with the id goes and the rest stays in place. *)
Definition removesOne (i : Z) (l l' : list Session.t) : Prop :=
  exists before s after,
    l = (before ++ s :: after)%list /\ Session.id s = i /\ l' = (before ++ after)%list.

(** The entries with another id, in their order. *)
Definition keepOthers (i : Z) (l : list Session.t) : list Session.t :=
  List.filter (fun s => negb (Session.id s =? i)) l.

(** ** Concrete runs *)

Definition stamp : string := "2024-01-01T10:00:00.000Z".

(** [Date.now()] at that instant. *)
Definition instant : Z := 1704103200000.

(** A run in which the clock reads the same millisecond at two saves. *)
Definition sameClockRun : list action :=
  [ TypeNote "a"; Start; Tick; Save instant stamp; TypeNote "b"; Start; Tick; Save instant stamp ].

(** What that run leaves in the list. *)
Definition twins : list Session.t :=
  [ {| Session.id := instant; Session.note := "b"; Session.durationSeconds := 1;
       Session.createdAt := stamp |};
    {| Session.id := instant; Session.note := "a"; Session.durationSeconds := 1;
       Session.createdAt := stamp |} ].

Definition twinWorld : World :=
  @runActions Sample.json (@mount Sample.json emptyStorage) sameClockRun.

(** A note typed, the timer started and paused before its first tick. *)
Definition typingWorld : World :=
  @runActions Sample.json (@mount Sample.json emptyStorage) [TypeNote "reading"; Start; Pause].

(** Two sessions saved one second apart. *)
Definition listedWorld : World :=
  @runActions Sample.json (@mount Sample.json emptyStorage)
    [ TypeNote "a"; Start; Tick; Save instant stamp; TypeNote "b"; Start; Tick; Save (instant + 1000) stamp ].

Definition listed : list Session.t :=
  [ {| Session.id := instant + 1000; Session.note := "b"; Session.durationSeconds := 1;
       Session.createdAt := stamp |};
    {| Session.id := instant; Session.note := "a"; Session.durationSeconds := 1;
       Session.createdAt := stamp |} ].

(** The same two sessions, then a note of two spaces and one more elapsed
    second. *)
Definition listedBlankWorld : World :=
  @runActions Sample.json listedWorld [TypeNote "  "; Start; Tick].

(** ** The store after a call *)

(** What a successful or failed [setItem] / [removeItem] leaves behind. *)
Definition written (k v : string) (d : Storage) : Storage :=
  let d' := record (SetItem k v) d in
  if setThrows d then d' else withItems (<[k := v]> (items d')) d'.

Definition removed (k : string) (d : Storage) : Storage :=
  let d' := record (RemoveItem k) d in
  if removeThrows d then d' else withItems (delete k (items d')) d'.

(** ** Mounting *)

Definition isThemeName (t : string) : bool := String.eqb t "light" || String.eqb t "dark".

(** What the load effect takes from the store. *)
Definition loadedTheme (d : Storage) : string :=
  if getThrows d then "dark"
  else match items d !! themeKey with
       | Some t => if isThemeName t then t else "dark"
       | None => "dark"
       end.

Definition loadedSessions `{Json} (d : Storage) : option jsval :=
  if getThrows d then None
  else match items d !! sessionsKey with
       | Some (String c r) => JSON_parse (String c r)
       | _ => None
       end.

(** The reads of the load effect; the second is not reached when the
    first raises. *)
Definition afterLoad (d : Storage) : Storage :=
  if getThrows d then record (GetItem themeKey) d
  else record (GetItem sessionsKey) (record (GetItem themeKey) d).

(** The state once the loaded values are applied. *)
Definition mountedState `{Json} (d : Storage) : State :=
  {| seconds := 0; isRunning := false; note := "";
     sessions := default (JArr []) (loadedSessions d);
     theme := loadedTheme d |}.

(** The store after the first pass of the effects, which write the
    initial theme and the initial (empty) list. *)
Definition firstPass `{Json} (d : Storage) : Storage :=
  written sessionsKey (JSON_stringify (JArr [])) (written themeKey "dark" (afterLoad d)).

(** The theme effect runs again when the loaded theme is not the initial
    one. *)
Definition rewriteTheme (t : string) (d : Storage) : Storage :=
  if String.eqb "dark" t then d else written themeKey t d.

(** ** What reaches the store *)

Definition isTheme (t : string) : Prop := t = "dark" \/ t = "light".

(** The calls the component makes: reads of the two keys, writes of a
    theme name under the theme key and of an encoded list under the
    sessions key, removal of the sessions key. *)
Definition goodEvent `{Json} (e : event) : Prop :=
  match e with
  | GetItem k => k = "quicknote_theme" \/ k = "quicknote_sessions"
  | SetItem k v =>
      (k = "quicknote_theme" /\ isTheme v)
      \/ (k = "quicknote_sessions" /\ exists u, v = JSON_stringify u)
  | RemoveItem k => k = "quicknote_sessions"
  end.

(** While the component runs and the store takes writes, the store holds
    the current theme and the encoding of the current list. *)
Definition mirrored `{Json} (s : State) (d : Storage) : Prop :=
  items d !! "quicknote_theme" = Some (theme s)
  /\ items d !! "quicknote_sessions" = Some (JSON_stringify (sessions s)).

(** The invariant of a run. *)
Definition inv `{Json} (w : World) : Prop :=
  isTheme (theme (st w))
  /\ Forall goodEvent (log (disk w))
  /\ (alive w = true -> setThrows (disk w) = false -> mirrored (st w) (disk w)).

(** A working store that holds one entry. *)
Definition storing (k v : string) : Storage :=
  {| items := {[ k := v ]}; getThrows := false; setThrows := false;
     removeThrows := false; log := [] |}.

(** * Daily productivity stats (App.jsx, lines 137-148) on session records

    [toDateString] stands for [new Date(createdAt).toDateString()], the
    local calendar date of a time stamp, and [todayStr] for
    [new Date().toDateString()] at the render; both are platform
    functions. *)
Section Today.
Variable toDateString : string -> string.
Variable todayStr : string.

Definition todaysSessions (sessions : list Session.t) : list Session.t :=
  List.filter (fun s => String.eqb (toDateString (Session.createdAt s)) todayStr) sessions.

(** The reducer adds doubles; it adds as [Z] does on lists with
    [safeDurations]. *)
Definition totalSecondsToday (sessions : list Session.t) : Z :=
  fold_left (fun sum s => sum + Session.durationSeconds s) (todaysSessions sessions) 0.

(** [new Set(todaysSessions.map((s) => s.note.toLowerCase())).size] *)
Definition tasksTodayCount (sessions : list Session.t) : nat :=
  size (list_to_set (map (fun s => toLowerCase (Session.note s)) (todaysSessions sessions))
        : gset string).
End Today.

(** * Further vocabulary *)

(** ** Reading a printed time back *)

Definition isColon (c : ascii) : bool := code c =? 58.

Fixpoint upToColon (s : string) : string :=
  match s with
  | EmptyString => EmptyString
  | String c r => if isColon c then EmptyString else String c (upToColon r)
  end.

Fixpoint afterColon (s : string) : string :=
  match s with
  | EmptyString => EmptyString
  | String c r => if isColon c then r else afterColon r
  end.

(** The number of seconds a text [HH:MM:SS] stands for. *)
Definition readTime (s : string) : Z :=
  let rest := afterColon s in
  3600 * value (upToColon s) + 60 * value (upToColon rest) + value (afterColon rest).

(** ** Runs of the component *)

(** The worlds the component can be in: mounted on some store, then any
    actions. *)
Inductive reachable `{Json} : World -> Prop :=
| reach_mount (d : Storage) : reachable (mount d)
| reach_step (w : World) (a : action) : reachable w -> reachable (dispatch w a).

(** What [seconds] and [isRunning] are after an action. *)
Definition secondsAfter (a : action) (s : State) : Z :=
  match a with
  | Tick => if isRunning s then seconds s + 1 else seconds s
  | Reset | Save _ _ => 0
  | _ => seconds s
  end.

Definition runningAfter (a : action) (s : State) : bool :=
  match a with
  | Start => true
  | Pause | Reset => false
  | Save _ _ => if seconds s =? 0 then isRunning s else false
  | _ => isRunning s
  end.

(** The actions of the timer and of the note field. *)
Definition quiet (a : action) : bool :=
  match a with
  | Start | Pause | Reset | Tick | TypeNote _ => true
  | _ => false
  end.

(** A session as the data model wants it: at least one second, a label
    that is not empty and has no white space at its ends. *)
Definition wellFormed (s : Session.t) : Prop :=
  1 <= Session.durationSeconds s
  /\ Session.note s <> EmptyString
  /\ startsClean (Session.note s) = true
  /\ endsClean (Session.note s) = true.

(** The same world on another store. *)
Definition onDisk (d : Storage) (w : World) : World :=
  {| st := st w; disk := d; alive := alive w |}.

(** ** Sums over the groups *)

Definition groupSeconds (m : gmap string TaskEntry) : Z :=
  map_fold (fun _ e a => totalSeconds e + a) 0 m.

Definition groupCounts (m : gmap string TaskEntry) : Z :=
  map_fold (fun _ e a => count e + a) 0 m.

(** The sessions that do get a group. *)
Definition grouped (l : list Session.t) : list Session.t :=
  List.filter (fun s => negb (inheritedKey (keyOf s))) l.

(** ** More concrete worlds *)

(** The timer running, one second elapsed, the note field holding
    ["reading"]. *)
Definition runningWorld : World :=
  @runActions Sample.json (@mount Sample.json emptyStorage) [TypeNote "reading"; Start; Tick].

Definition toggled (t : string) : string :=
  if String.eqb t "dark" then "light" else "dark".

Definition withTheme (t : string) (s : State) : State :=
  {| seconds := seconds s; isRunning := isRunning s; note := note s;
     sessions := sessions s; theme := t |}.

(** A store that holds the two odd records of the sample table. *)
Definition oddStore : Storage := storing sessionsKey Sample.oddText.

(** A first-run store on which every write raises. *)
Definition fullStorage : Storage :=
  {| items := ∅; getThrows := false; setThrows := true; removeThrows := false; log := [] |}.

(** The session that a save builds from the state. *)
Definition savedSession (now : Z) (iso : string) (s : State) : Session.t :=
  {| Session.id := now;
     Session.note := match trim (note s) with
                     | EmptyString => "Untitled session"
                     | String c r => String c r
                     end;
     Session.durationSeconds := seconds s;
     Session.createdAt := iso |}.

(** What every run keeps when nothing was loaded: the component is
    mounted and its list holds well-formed records only. *)
Definition sound `{Json} (w : World) : Prop :=
  alive w = true
  /\ 0 <= seconds (st w)
  /\ exists l, sessions (st w) = Session.listToJs l /\ Forall wellFormed l.

(** The sum of a measure over the groups. *)
Definition sumOver (g : TaskEntry -> Z) (m : gmap string TaskEntry) : Z :=
  map_fold (fun _ e a => g e + a) 0 m.

(** The clock readings of the saves of a run, in order. *)
Definition clocks (acts : list action) : list Z :=
  flat_map (fun a => match a with Save now _ => [now] | _ => [] end) acts.

(** Every id is earlier than every clock reading still to come. *)
Definition before (ids future : list Z) : Prop :=
  Forall (fun i => Forall (fun c => i < c) future) ids.

(** A sample calendar: the date part of an ISO time stamp. *)
Definition datePart (iso : string) : string := substring 0 10 iso.

(** Two sessions stamped on the first of January and one on the second. *)
Definition twoDays : list Session.t :=
  (readExample
   ++ [ {| Session.id := 3; Session.note := "walk"; Session.durationSeconds := 600;
           Session.createdAt := "2024-01-02T08:00:00.000Z" |} ])%list.

(** Each clock reading is earlier than all the later ones. *)
Fixpoint rising (l : list Z) : Prop :=
  match l with
  | [] => True
  | c :: r => Forall (fun x => c < x) r /\ rising r
  end.

(** The number of ticks among the actions of a run. *)
Definition ticksIn (acts : list action) : Z :=
  Z.of_nat (length (List.filter (fun a => match a with Tick => true | _ => false end) acts)).

(** Two saves one second apart, a delete, a third save. *)
Definition risingRun : list action :=
  [ Start; Tick; Save instant stamp; Start; Tick; Save (instant + 1000) stamp;
    Delete instant; Start; Tick; Tick; Save (instant + 3000) stamp ].

(** * Properties *)

(** ** Decimal numerals *)

Section Decimal.

Lemma mod10_bound n : 0 <= n mod 10 <= 9.
Proof. pose proof (Z.mod_pos_bound n 10). lia. Qed.

Lemma code_digitChar d : 0 <= d <= 9 -> code (digitChar d) = 48 + d.
Proof.
  intros Hd. unfold code, digitChar, ofCode.
  rewrite nat_ascii_embedding; lia.
Qed.

Lemma isDigit_digitChar d : 0 <= d <= 9 -> isDigit (digitChar d) = true.
Proof.
  intros Hd. unfold isDigit. rewrite code_digitChar by lia.
  apply andb_true_intro; split; apply Z.leb_le; lia.
Qed.

Lemma valueFrom_app a s t : valueFrom a (s ++ t) = valueFrom (valueFrom a s) t.
Proof. revert a; induction s as [|c s IH]; intros a; simpl; [reflexivity | apply IH]. Qed.

Lemma allDigits_app s t : allDigits (s ++ t) = allDigits s && allDigits t.
Proof.
  induction s as [|c s IH]; simpl; [reflexivity |].
  rewrite IH. apply andb_assoc.
Qed.

Lemma length_app s t : String.length (s ++ t) = (String.length s + String.length t)%nat.
Proof. induction s as [|c s IH]; simpl; [reflexivity | now rewrite IH]. Qed.

(** With enough fuel [decimalGo] pushes the digits of [n] in front of
    the accumulator. *)
Lemma decimalGo_value f : forall n acc,
  0 <= n < 2 ^ (Z.of_nat f + 1) ->
  valueFrom 0 (decimalGo f n acc) = valueFrom n acc.
Proof.
  induction f as [|f IH]; intros n acc Hn.
  - simpl. rewrite code_digitChar by apply mod10_bound.
    change (2 ^ (Z.of_nat 0 + 1)) with 2 in Hn.
    rewrite Z.mod_small by lia. f_equal. lia.
  - cbn [decimalGo]. destruct (Z.ltb_spec n 10) as [Hlt|Hge].
    + simpl. rewrite code_digitChar by apply mod10_bound.
      rewrite Z.mod_small by lia. f_equal. lia.
    + rewrite IH.
      * simpl. rewrite code_digitChar by apply mod10_bound.
        f_equal. pose proof (Z.div_mod n 10). lia.
      * replace (Z.of_nat (S f) + 1) with (Z.succ (Z.of_nat f + 1)) in Hn by lia.
        rewrite Z.pow_succ_r in Hn by lia.
        split; [apply Z.div_pos; lia |].
        apply Z.div_lt_upper_bound; lia.
Qed.

Lemma decimalGo_digits f : forall n acc,
  allDigits (decimalGo f n acc) = allDigits acc.
Proof.
  induction f as [|f IH]; intros n acc.
  - simpl. now rewrite isDigit_digitChar by apply mod10_bound.
  - cbn [decimalGo]. destruct (n <? 10).
    + simpl. now rewrite isDigit_digitChar by apply mod10_bound.
    + rewrite IH. simpl.
      now rewrite isDigit_digitChar by apply mod10_bound.
Qed.

(** The numeral of a positive number starts with a non-zero digit. *)
Lemma decimalGo_head f : forall n acc,
  0 < n < 2 ^ (Z.of_nat f + 1) ->
  exists d r, decimalGo f n acc = String (digitChar d) r /\ 1 <= d <= 9.
Proof.
  induction f as [|f IH]; intros n acc Hn.
  - change (2 ^ (Z.of_nat 0 + 1)) with 2 in Hn.
    exists (n mod 10), acc. split; [reflexivity |].
    rewrite Z.mod_small; lia.
  - cbn [decimalGo]. destruct (Z.ltb_spec n 10) as [Hlt|Hge].
    + exists (n mod 10), acc. split; [reflexivity |].
      rewrite Z.mod_small; lia.
    + apply IH.
      replace (Z.of_nat (S f) + 1) with (Z.succ (Z.of_nat f + 1)) in Hn by lia.
      rewrite Z.pow_succ_r in Hn by lia.
      split; [apply Z.div_str_pos; lia |].
      apply Z.div_lt_upper_bound; lia.
Qed.

Lemma decimalGo_length f : forall n acc,
  (String.length acc < String.length (decimalGo f n acc))%nat.
Proof.
  induction f as [|f IH]; intros n acc.
  - simpl. lia.
  - cbn [decimalGo]. destruct (n <? 10); [simpl; lia |].
    specialize (IH (n / 10) (String (digitChar (n mod 10)) acc)).
    simpl in IH. lia.
Qed.

Lemma fuel_enough n : 0 <= n -> n < 2 ^ (Z.of_nat (Z.to_nat (Z.log2 n)) + 1).
Proof.
  intros Hn. rewrite Z2Nat.id by apply Z.log2_nonneg.
  destruct (Z.eq_dec n 0) as [->|Hne]; [reflexivity |].
  replace (Z.log2 n + 1) with (Z.succ (Z.log2 n)) by lia.
  apply Z.log2_spec. lia.
Qed.

Lemma decimal_value n : 0 <= n -> value (decimal n) = n.
Proof.
  intros Hn. unfold value, decimal. rewrite decimalGo_value; [reflexivity |].
  split; [assumption | now apply fuel_enough].
Qed.

Lemma decimal_digits n : allDigits (decimal n) = true.
Proof. unfold decimal. now rewrite decimalGo_digits. Qed.

Lemma decimal_small n : 0 <= n < 10 -> decimal n = String (digitChar n) EmptyString.
Proof.
  intros Hn. unfold decimal.
  destruct (Z.to_nat (Z.log2 n)) as [|f]; cbn [decimalGo].
  - now rewrite Z.mod_small by lia.
  - destruct (Z.ltb_spec n 10); [| lia]. now rewrite Z.mod_small by lia.
Qed.

Lemma decimal_two n :
  10 <= n < 100 ->
  decimal n = String (digitChar (n / 10)) (String (digitChar (n mod 10)) EmptyString).
Proof.
  intros Hn. unfold decimal.
  assert (Hlog : 3 <= Z.log2 n) by (apply Z.log2_le_pow2; simpl; lia).
  destruct (Z.to_nat (Z.log2 n)) as [|f] eqn:Hf; [lia |].
  cbn [decimalGo]. destruct (Z.ltb_spec n 10); [lia |].
  assert (Hq : 0 <= n / 10 < 10).
  { split; [apply Z.div_pos; lia | apply Z.div_lt_upper_bound; lia]. }
  destruct f as [|f]; cbn [decimalGo].
  - now rewrite (Z.mod_small (n / 10)) by lia.
  - destruct (Z.ltb_spec (n / 10) 10); [| lia].
    now rewrite (Z.mod_small (n / 10)) by lia.
Qed.

Lemma decimal_long n : 100 <= n -> (3 <= String.length (decimal n))%nat.
Proof.
  intros Hn. unfold decimal.
  assert (Hlog : 6 <= Z.log2 n) by (apply Z.log2_le_pow2; simpl; lia).
  destruct (Z.to_nat (Z.log2 n)) as [|f] eqn:Hf; [lia |].
  cbn [decimalGo]. destruct (Z.ltb_spec n 10); [lia |].
  destruct f as [|f]; [lia |].
  cbn [decimalGo]. destruct (Z.ltb_spec (n / 10) 10) as [Hlt|Hge].
  - exfalso. pose proof (Z.div_mod n 10). pose proof (Z.mod_pos_bound n 10). lia.
  - match goal with |- (_ <= String.length (decimalGo ?g ?k ?a))%nat =>
      pose proof (decimalGo_length g k a) as Hl end.
    simpl in Hl. lia.
Qed.

Lemma decimal_head n :
  0 < n -> exists d r, decimal n = String (digitChar d) r /\ 1 <= d <= 9.
Proof.
  intros Hn. unfold decimal. apply decimalGo_head.
  split; [assumption | apply fuel_enough; lia].
Qed.

(** [String(n).padStart(2, "0")] for a number below 100. *)
Lemma pad2_small n :
  0 <= n < 100 ->
  padStart 2 "0" (ofInt n)
  = String (digitChar (n / 10)) (String (digitChar (n mod 10)) EmptyString).
Proof.
  intros Hn. unfold ofInt. destruct (Z.ltb_spec n 0); [lia |].
  destruct (Z_lt_le_dec n 10) as [Hlt|Hge].
  - rewrite decimal_small by lia.
    rewrite Z.div_small, Z.mod_small by lia. reflexivity.
  - rewrite decimal_two by lia. reflexivity.
Qed.

Lemma pad2_long n : 100 <= n -> padStart 2 "0" (ofInt n) = decimal n.
Proof.
  intros Hn. unfold ofInt. destruct (Z.ltb_spec n 0); [lia |].
  unfold padStart. pose proof (decimal_long n Hn) as Hl.
  destruct (Nat.leb_spec 2 (String.length (decimal n))); [reflexivity | lia].
Qed.

Lemma two_digits_value n (Hn : 0 <= n < 100) :
  let s := String (digitChar (n / 10)) (String (digitChar (n mod 10)) EmptyString) in
  allDigits s = true /\ String.length s = 2%nat /\ value s = n.
Proof.
  assert (Hq : 0 <= n / 10 <= 9).
  { split; [apply Z.div_pos; lia |].
    assert (n / 10 < 10) by (apply Z.div_lt_upper_bound; lia). lia. }
  pose proof (Z.mod_pos_bound n 10 ltac:(lia)) as Hr.
  simpl. rewrite !isDigit_digitChar by lia. repeat split.
  unfold value. simpl. rewrite !code_digitChar by lia.
  pose proof (Z.div_mod n 10). lia.
Qed.

End Decimal.

(** ** [formatTime] *)

Lemma pad2_field n :
  0 <= n ->
  field (padStart 2 "0" (ofInt n)) n
  /\ (2 <= String.length (padStart 2 "0" (ofInt n)))%nat
  /\ (n < 100 -> String.length (padStart 2 "0" (ofInt n)) = 2%nat)
  /\ (100 <= n ->
      exists d r, padStart 2 "0" (ofInt n) = String (digitChar d) r /\ 1 <= d <= 9).
Proof.
  intros Hn. destruct (Z_lt_le_dec n 100) as [Hlt|Hge].
  - rewrite pad2_small by lia.
    destruct (two_digits_value n ltac:(lia)) as (Hd & Hl & Hv).
    repeat split; try assumption; try (intros; lia).
  - rewrite pad2_long by lia. split; [| split; [| split]].
    + split; [apply decimal_digits | apply decimal_value; lia].
    + pose proof (decimal_long n Hge). lia.
    + intros; lia.
    + intros _. apply decimal_head. lia.
Qed.

(** C1 (as stated): [formatTime(3600*30)] is not ["720:00:00"]; thirty
    hours print as ["30:00:00"]. *)
Lemma formatTime_thirty_hours_not_720 : formatTime (3600 * 30) <> "720:00:00".
Proof. vm_compute. discriminate. Qed.

(** C1 (as amended): for every non-negative safe integer [s] (at most
    2^53 - 1, the range in which the code's doubles are exact),
    [formatTime s] is [HH:MM:SS] where the three fields are digit strings; [HH] reads back as
    [s / 3600] with no modulus, has at least two characters and, beyond
    two, no leading zero; [MM] and [SS] have exactly two characters and
    read back as the minutes within the hour and the seconds within the
    minute.  In particular 3661, 59 and 3600*30 seconds print as
    ["01:01:01"], ["00:00:59"] and ["30:00:00"], and ["720:00:00"] is what
    3600*720 seconds print as. *)
Theorem formatTime_fields (s : Z) (Hs : 0 <= s) (Hsafe : s <= maxSafeInteger) :
  (exists hh mm ss,
      formatTime s = hh ++ ":" ++ mm ++ ":" ++ ss
      /\ field hh (s / 3600)
      /\ field mm (s mod 3600 / 60)
      /\ field ss (s mod 60)
      /\ (2 <= String.length hh)%nat
      /\ ((2 < String.length hh)%nat ->
          exists d r, hh = String (digitChar d) r /\ 1 <= d <= 9)
      /\ String.length mm = 2%nat
      /\ String.length ss = 2%nat
      /\ 3600 * value hh + 60 * value mm + value ss = s)
  /\ formatTime 3661 = "01:01:01"
  /\ formatTime 59 = "00:00:59"
  /\ formatTime (3600 * 30) = "30:00:00"
  /\ formatTime (3600 * 720) = "720:00:00".
Proof.
  split; [| repeat split; reflexivity].
  unfold formatTime.
  rewrite !Z.rem_mod_nonneg by lia.
  set (h := s / 3600). set (m := s mod 3600 / 60). set (r := s mod 60).
  assert (Hh : 0 <= h) by (apply Z.div_pos; lia).
  pose proof (Z.mod_pos_bound s 3600 ltac:(lia)) as Hm3600.
  assert (Hm : 0 <= m < 60).
  { split; [apply Z.div_pos; lia | apply Z.div_lt_upper_bound; lia]. }
  pose proof (Z.mod_pos_bound s 60 ltac:(lia)) as Hr. fold r in Hr.
  destruct (pad2_field h Hh) as ((Hhd & Hhv) & Hhl & Hh2 & Hh3).
  destruct (pad2_field m ltac:(lia)) as ((Hmd & Hmv) & _ & Hm2 & _).
  destruct (pad2_field r ltac:(lia)) as ((Hrd & Hrv) & _ & Hr2 & _).
  exists (padStart 2 "0" (ofInt h)), (padStart 2 "0" (ofInt m)), (padStart 2 "0" (ofInt r)).
  split; [reflexivity |].
  split; [split; assumption |].
  split; [split; assumption |].
  split; [split; assumption |].
  split; [assumption |].
  split.
  { intros Hlong. apply Hh3.
    destruct (Z_lt_le_dec h 100) as [Hlt|Hge]; [| assumption].
    specialize (Hh2 Hlt). lia. }
  split; [apply Hm2; lia |].
  split; [apply Hr2; lia |].
  rewrite Hhv, Hmv, Hrv. subst h m r.
  pose proof (Z.div_mod s 3600 ltac:(lia)) as E1.
  pose proof (Z.div_mod (s mod 3600) 60 ltac:(lia)) as E2.
  assert (E3 : (s mod 3600) mod 60 = s mod 60).
  { symmetry. rewrite (Z.div_mod s 3600) at 1 by lia.
    replace (3600 * (s / 3600)) with ((60 * (s / 3600)) * 60) by lia.
    rewrite Z.add_comm, Z.mod_add by lia. reflexivity. }
  lia.
Qed.

Lemma formatTime_fields_witness :
  (0 <= 108000 /\ 108000 <= maxSafeInteger) /\
  exists hh mm ss,
    formatTime 108000 = hh ++ ":" ++ mm ++ ":" ++ ss
    /\ field hh 30 /\ field mm 0 /\ field ss 0.
Proof.
  split; [split; [lia | vm_compute; discriminate] |].
  destruct (formatTime_fields 108000 ltac:(lia) ltac:(vm_compute; discriminate))
    as ((hh & mm & ss & E & Fh & Fm & Fs & _) & _).
  exists hh, mm, ss. repeat split; first [exact E | apply Fh | apply Fm | apply Fs].
Defined.

(** ** Task averages *)

Section TaskStats.
Implicit Types (acc : gmap string TaskEntry) (s : Session.t) (l : list Session.t).

Lemma step_other acc s k : keyOf s <> k -> taskStatsStep acc s !! k = acc !! k.
Proof.
  intros Hne. unfold taskStatsStep, accGet. fold (keyOf s).
  destruct (acc !! keyOf s) as [e|] eqn:E.
  - rewrite E. now rewrite lookup_insert_ne.
  - destruct (inheritedKey (keyOf s)).
    + now rewrite E.
    + rewrite lookup_insert_eq. now rewrite !lookup_insert_ne.
Qed.

Lemma step_same acc s :
  inheritedKey (keyOf s) = false ->
  taskStatsStep acc s !! keyOf s
  = Some (bump (default (opened s) (acc !! keyOf s)) s).
Proof.
  intros Hin. unfold taskStatsStep, accGet. fold (keyOf s). rewrite Hin.
  destruct (acc !! keyOf s) as [e|] eqn:E.
  - rewrite E. now rewrite lookup_insert_eq.
  - rewrite lookup_insert_eq. now rewrite lookup_insert_eq.
Qed.

(** A note whose lower-cased form names an inherited property never
    gets an own entry. *)
Lemma step_inherited acc s :
  inheritedKey (keyOf s) = true -> acc !! keyOf s = None -> taskStatsStep acc s = acc.
Proof.
  intros Hin E. unfold taskStatsStep, accGet. fold (keyOf s).
  now rewrite E, Hin, E.
Qed.

Lemma fold_inherited l : forall acc k,
  inheritedKey k = true -> acc !! k = None ->
  fold_left taskStatsStep l acc !! k = None.
Proof.
  induction l as [|s l IH]; intros acc k Hin E; [exact E |].
  simpl. apply IH; [assumption |].
  destruct (String.eqb_spec (keyOf s) k) as [<-|Hne].
  - now rewrite step_inherited.
  - now rewrite step_other.
Qed.

Lemma fold_lookup l : forall acc k,
  inheritedKey k = false ->
  fold_left taskStatsStep l acc !! k = fold_left (absorb k) l (acc !! k).
Proof.
  induction l as [|s l IH]; intros acc k Hin; [reflexivity |].
  simpl. rewrite IH by assumption. f_equal. unfold absorb.
  destruct (String.eqb_spec (keyOf s) k) as [<-|Hne].
  - now apply step_same.
  - now apply step_other.
Qed.

Lemma absorb_some l : forall k e,
  fold_left (absorb k) l (Some e)
  = Some {| name := name e;
            totalSeconds := totalSeconds e + sumSeconds (members k l);
            count := count e + Z.of_nat (length (members k l)) |}.
Proof.
  induction l as [|s l IH]; intros k e.
  - simpl. destruct e; simpl. do 2 f_equal; lia.
  - simpl. unfold absorb at 2, members. simpl.
    destruct (String.eqb (keyOf s) k) eqn:E.
    + rewrite IH. unfold members. cbn [bump name totalSeconds count default].
      cbn [sumSeconds fold_right length]. fold (sumSeconds (List.filter (λ s0, String.eqb (keyOf s0) k) l)).
      do 2 f_equal; lia.
    + now rewrite IH.
Qed.

Lemma absorb_none l : forall k, fold_left (absorb k) l None = groupOf k l.
Proof.
  induction l as [|s l IH]; intros k; [reflexivity |].
  simpl. unfold absorb at 2, groupOf, members. simpl.
  destruct (String.eqb (keyOf s) k) eqn:E.
  - rewrite absorb_some. unfold members. cbn [bump opened name totalSeconds count default].
    cbn [sumSeconds fold_right length]. fold (sumSeconds (List.filter (λ s0, String.eqb (keyOf s0) k) l)).
    do 2 f_equal; lia.
  - apply IH.
Qed.

(** Away from the inherited names the reducer computes the groups as
    described: name of the first member, sum and number of members. *)
Lemma taskStatsMap_group l k :
  inheritedKey k = false -> taskStatsMap l !! k = groupOf k l.
Proof.
  intros Hin. unfold taskStatsMap. rewrite fold_lookup by assumption.
  rewrite lookup_empty. apply absorb_none.
Qed.

Lemma taskStatsMap_inherited l k :
  inheritedKey k = true -> taskStatsMap l !! k = None.
Proof. intros Hin. apply fold_inherited; [assumption | apply lookup_empty]. Qed.

Lemma taskStats_lookup l k :
  taskStats l !! k = withAverage <$> taskStatsMap l !! k.
Proof. unfold taskStats. apply lookup_fmap. Qed.

End TaskStats.

(** The example of the claim: one group, shown as ["Read"], with two
    sessions, 180 seconds in total and 90 on average. *)
Lemma taskStats_read_example :
  exists t,
    taskStats readExample = {[ "read" := t ]}
    /\ name (task t) = "Read"
    /\ count (task t) = 2
    /\ totalSeconds (task t) = 180
    /\ (averageSeconds t == 90)%Q.
Proof.
  eexists. split; [vm_compute; reflexivity |].
  repeat split.
Qed.

(** C2: the session list with the single note ["constructor"] has one
    member in the group of that key, and the computed statistics have no
    group at all: [acc["constructor"]] is the inherited [Object] function,
    so no entry is opened and the sums go to that function. *)
Theorem taskStats_constructor_lost :
  members "constructor" constructorExample = constructorExample
  /\ groupOf "constructor" constructorExample
     = Some {| name := "constructor"; totalSeconds := 60; count := 1 |}
  /\ taskStatsMap constructorExample = ∅
  /\ taskStats constructorExample = ∅.
Proof. repeat split; vm_compute; reflexivity. Qed.

(** ** [trim] and [toLowerCase] *)

Example trim_keeps_inner_space : trim "  deep work  " = "deep work".
Proof. reflexivity. Qed.

Example trim_tab_and_newline :
  trim (String (ofCode 9) (String (ofCode 160) ("x" ++ String (ofCode 10) EmptyString))) = "x".
Proof. reflexivity. Qed.

Example toLowerCase_ascii : toLowerCase "Read The DOCS 42" = "read the docs 42".
Proof. reflexivity. Qed.

(** U+00C9 (E acute) goes to U+00E9, the multiplication sign stays. *)
Example toLowerCase_latin1 :
  toLowerCase (String (ofCode 201) (String (ofCode 215) EmptyString))
  = String (ofCode 233) (String (ofCode 215) EmptyString).
Proof. reflexivity. Qed.

Section Trim.

Lemma append_cons c a b : String c a ++ b = String c (a ++ b).
Proof. reflexivity. Qed.

Lemma trimStart_split s :
  exists pre, s = pre ++ trimStart s /\ allWhiteSpace pre = true
              /\ startsClean (trimStart s) = true.
Proof.
  induction s as [|c s (pre & E & Hpre & Hclean)]; [exists EmptyString; auto |].
  simpl. destruct (isWhiteSpace c) eqn:Hc.
  - exists (String c pre). simpl. rewrite Hc, Hpre, append_cons, <- E. auto.
  - exists EmptyString. simpl. now rewrite Hc.
Qed.

Lemma trimEnd_split s :
  exists post, s = trimEnd s ++ post /\ allWhiteSpace post = true
               /\ endsClean (trimEnd s) = true.
Proof.
  induction s as [|c s (post & E & Hpost & Hclean)]; [exists EmptyString; auto |].
  simpl. destruct (trimEnd s) as [|d r] eqn:Ht.
  - destruct (isWhiteSpace c) eqn:Hc.
    + exists (String c post). simpl in *. rewrite Hc, Hpost. subst s. auto.
    + exists post. simpl in *. rewrite Hc. subst s. auto.
  - exists post. rewrite append_cons, <- E. auto.
Qed.

Lemma trimEnd_head c r :
  isWhiteSpace c = false -> exists r', trimEnd (String c r) = String c r'.
Proof.
  intros Hc. simpl. destruct (trimEnd r); [rewrite Hc |]; eauto.
Qed.

Lemma trimEnd_startsClean s : startsClean s = true -> startsClean (trimEnd s) = true.
Proof.
  destruct s as [|c r]; [reflexivity |]. simpl. intros Hc.
  apply negb_true_iff in Hc. destruct (trimEnd_head c r Hc) as (r' & E).
  simpl in E. rewrite E. simpl. now rewrite Hc.
Qed.

(** [trim] removes a run of white space at each end and nothing else. *)
Lemma trim_split s :
  exists pre post,
    s = pre ++ trim s ++ post
    /\ allWhiteSpace pre = true /\ allWhiteSpace post = true
    /\ startsClean (trim s) = true /\ endsClean (trim s) = true.
Proof.
  destruct (trimStart_split s) as (pre & E1 & Hpre & Hs).
  destruct (trimEnd_split (trimStart s)) as (post & E2 & Hpost & He).
  exists pre, post. unfold trim. rewrite <- E2.
  repeat split; try assumption. now apply trimEnd_startsClean.
Qed.

Lemma trimEnd_blank s : allWhiteSpace s = true -> trimEnd s = EmptyString.
Proof.
  induction s as [|c s IH]; [reflexivity |]. simpl.
  intros Hs. apply andb_true_iff in Hs as [Hc Hs].
  now rewrite IH, Hc.
Qed.

Lemma trimStart_blank s : allWhiteSpace s = true -> trimStart s = EmptyString.
Proof.
  induction s as [|c s IH]; [reflexivity |]. simpl.
  intros Hs. apply andb_true_iff in Hs as [Hc Hs]. rewrite Hc. now apply IH.
Qed.

Lemma allWhiteSpace_app s t :
  allWhiteSpace (s ++ t) = allWhiteSpace s && allWhiteSpace t.
Proof.
  induction s as [|c s IH]; simpl; [reflexivity |].
  rewrite IH. apply andb_assoc.
Qed.

Lemma trim_blank s : trim s = EmptyString <-> allWhiteSpace s = true.
Proof.
  split.
  - intros E. destruct (trim_split s) as (pre & post & Es & Hpre & Hpost & _).
    rewrite E in Es. rewrite Es.
    now rewrite !allWhiteSpace_app, Hpre, Hpost.
  - intros Hs. unfold trim. now rewrite trimStart_blank.
Qed.

End Trim.

(** ** Saving and deleting *)

Section Handlers.
Context `{Json}.

Lemma commit_fresh_st old m : fresh m = true -> st (commit old m) = next m.
Proof.
  intros Hf. unfold commit. rewrite Hf. simpl.
  destruct (failed m || negb (renders (next m))); reflexivity.
Qed.

Lemma Qeq_bool_inject a b : Qeq_bool (inject_Z a) (inject_Z b) = (a =? b).
Proof.
  destruct (Z.eqb_spec a b) as [->|Hne].
  - apply Qeq_bool_refl.
  - destruct (Qeq_bool (inject_Z a) (inject_Z b)) eqn:E; [| reflexivity].
    apply Qeq_bool_iff in E. apply (proj1 (inject_Z_injective a b)) in E. congruence.
Qed.

Lemma filterId_records i l :
  filterId i (map Session.toJs l)
  = Ok (map Session.toJs (List.filter (fun s => negb (Session.id s =? i)) l)).
Proof.
  induction l as [|s l IH]; [reflexivity |].
  cbn [map filterId]. rewrite IH.
  unfold Session.toJs at 1. cbn [getProp ownProp String.eqb Ascii.eqb Bool.eqb strictNeqNum].
  simpl. rewrite Qeq_bool_inject.
  destruct (Session.id s =? i); reflexivity.
Qed.

Lemma reduceKeys_records l : reduceKeys (map Session.toJs l) = Ok (map keyOf l).
Proof.
  induction l as [|s l IH]; [reflexivity |].
  cbn [map reduceKeys]. rewrite IH. reflexivity.
Qed.

(** A list of session records always renders. *)
Lemma renders_records s l : sessions s = Session.listToJs l -> renders s = true.
Proof.
  intros E. unfold renders, render. rewrite E. unfold Session.listToJs.
  now rewrite reduceKeys_records.
Qed.

End Handlers.

Section SaveDelete.
Context `{Json}.

(** C3: with zero elapsed seconds, whatever the note, the save handler
    returns at its guard: no session is created and the state, the
    session list and the store are what they were. *)
Theorem save_zero_noop (w : World) (now : Z) (iso : string) :
  seconds (st w) = 0 -> dispatch w (Save now iso) = w.
Proof.
  intros Hzero. unfold dispatch. destruct w as [s d a]. simpl in *.
  destruct a; [| reflexivity].
  unfold handleSaveSession. rewrite Hzero. simpl.
  unfold commit, begin, samePrimitives. simpl.
  rewrite Z.eqb_refl, eqb_reflx, !String.eqb_refl. reflexivity.
Qed.

Lemma save_state (s : State) (d : Storage) now iso l :
  seconds s <> 0 -> sessions s = JArr l ->
  let cleaned := match trim (note s) with
                 | EmptyString => "Untitled session"
                 | String c r => String c r
                 end in
  snd (handleSaveSession now iso s (begin s d))
  = {| next := {| seconds := 0; isRunning := false; note := "";
                  sessions := JArr (Session.toJs
                                      {| Session.id := now; Session.note := cleaned;
                                         Session.durationSeconds := seconds s;
                                         Session.createdAt := iso |} :: l);
                  theme := theme s |};
       fresh := true; failed := false; store := d |}.
Proof.
  intros Hne Hl. unfold handleSaveSession.
  destruct (Z.eqb_spec (seconds s) 0) as [|_]; [contradiction |].
  unfold mbind, M_bind, setSessions, begin. simpl. rewrite Hl. reflexivity.
Qed.

Lemma save_world_sessions (w : World) (now : Z) (iso : string) (l : list jsval) :
  alive w = true -> seconds (st w) <> 0 -> sessions (st w) = JArr l ->
  sessions (st (dispatch w (Save now iso)))
  = JArr (Session.toJs
            {| Session.id := now;
               Session.note := match trim (note (st w)) with
                               | EmptyString => "Untitled session"
                               | String c r => String c r
                               end;
               Session.durationSeconds := seconds (st w);
               Session.createdAt := iso |} :: l).
Proof.
  intros Ha Hs Hl. unfold dispatch. rewrite Ha. cbn [handler].
  rewrite commit_fresh_st by (rewrite (save_state _ _ _ _ l) by assumption; reflexivity).
  now rewrite (save_state _ _ _ _ l) by assumption.
Qed.

(** A save whose clock reading is not yet an id of the list keeps the ids
    pairwise distinct. *)
Lemma save_new_id_distinct (w : World) (now : Z) (iso : string) (l : list Session.t) :
  alive w = true -> seconds (st w) <> 0 -> sessions (st w) = Session.listToJs l ->
  List.NoDup (map Session.id l) -> ~ In now (map Session.id l) ->
  exists s,
    sessions (st (dispatch w (Save now iso))) = Session.listToJs (s :: l)
    /\ Session.id s = now
    /\ List.NoDup (map Session.id (s :: l)).
Proof.
  intros Ha Hs Hl Hnd Hnew.
  eexists. split; [exact (save_world_sessions w now iso _ Ha Hs Hl) |].
  split; [reflexivity |]. simpl. now constructor.
Qed.

Lemma save_world_alive (w : World) (now : Z) (iso : string) (l : list jsval) :
  alive w = true -> seconds (st w) <> 0 -> sessions (st w) = JArr l ->
  alive (dispatch w (Save now iso)) = renders (st w).
Proof.
  intros Ha Hs Hl. unfold dispatch. rewrite Ha. cbn [handler].
  unfold commit. rewrite (save_state _ _ _ _ l) by assumption.
  cbn [fresh failed next orb negb andb].
  unfold renders, render. cbn [sessions]. rewrite Hl.
  cbn [reduceKeys].
  change (noteKey (Session.toJs ?s)) with (Ok (toLowerCase (Session.note s))).
  destruct (reduceKeys l); reflexivity.
Qed.

(** C4: with at least one elapsed second, save puts a new session at the
    front of the list and leaves the sessions already there behind it, as
    they were.  The new session is the object with the four properties
    [id] (the clock reading), [note], [durationSeconds] (the elapsed
    seconds) and [createdAt] (the time stamp); its note is the input
    without the white space at its two ends, or ["Untitled session"] when
    nothing else is left.  The component stays mounted exactly when it
    could display the list it had. *)
Theorem save_prepends (w : World) (now : Z) (iso : string) (l : list jsval) :
  alive w = true -> 1 <= seconds (st w) -> sessions (st w) = JArr l ->
  exists cleaned,
    savedNote (note (st w)) cleaned
    /\ (allWhiteSpace (note (st w)) = true -> cleaned = "Untitled session")
    /\ sessions (st (dispatch w (Save now iso)))
       = JArr (JObj [ ("id", JNum (inject_Z now));
                      ("note", JStr cleaned);
                      ("durationSeconds", JNum (inject_Z (seconds (st w))));
                      ("createdAt", JStr iso) ] :: l)
    /\ alive (dispatch w (Save now iso)) = renders (st w).
Proof.
  intros Ha Hs Hl.
  rewrite (save_world_sessions w now iso l) by (assumption || lia).
  rewrite (save_world_alive w now iso l) by (assumption || lia).
  eexists. split; [| split; [| split; reflexivity]].
  - destruct (trim_split (note (st w))) as (pre & post & E & Hpre & Hpost & Hsc & Hec).
    exists pre, (trim (note (st w))), post.
    repeat split; try assumption.
    + intros ->. reflexivity.
    + intros Hne. destruct (trim (note (st w))); [contradiction | reflexivity].
  - intros Hblank. apply trim_blank in Hblank. now rewrite Hblank.
Qed.

Lemma delete_state (s : State) (d : Storage) i l :
  sessions s = Session.listToJs l ->
  snd (handleDeleteSession i (begin s d))
  = {| next := {| seconds := seconds s; isRunning := isRunning s; note := note s;
                  sessions := Session.listToJs (keepOthers i l); theme := theme s |};
       fresh := true; failed := false; store := d |}.
Proof.
  intros Hl. unfold handleDeleteSession, setSessions, begin. simpl.
  rewrite Hl. unfold Session.listToJs, withoutId. now rewrite filterId_records.
Qed.

Lemma keepOthers_absent i l :
  ~ In i (map Session.id l) -> keepOthers i l = l.
Proof.
  induction l as [|s l IH]; [reflexivity |]. simpl. intros Hn.
  destruct (Z.eqb_spec (Session.id s) i) as [E|_]; [tauto |].
  simpl. f_equal. apply IH. tauto.
Qed.

Lemma keepOthers_unique i l :
  List.NoDup (map Session.id l) -> In i (map Session.id l) ->
  removesOne i l (keepOthers i l).
Proof.
  induction l as [|s l IH]; [intros _ []|]. simpl.
  intros Hnd Hin. apply List.NoDup_cons_iff in Hnd as [Hfresh Hnd].
  destruct (Z.eqb_spec (Session.id s) i) as [E|Hne].
  - exists [], s, l. simpl. repeat split; [assumption |].
    apply keepOthers_absent. now rewrite <- E.
  - destruct Hin as [E|Hin]; [contradiction |].
    destruct (IH Hnd Hin) as (b & x & a & El & Ex & Ek).
    exists (s :: b), x, a. simpl. fold (keepOthers i l).
    rewrite Ek. repeat split; [now f_equal | assumption].
Qed.

End SaveDelete.

Section DeleteClaim.
Context `{Json}.

(** C5 (as amended): on a list of session records, delete(id) removes
    every entry whose id matches, which is exactly one entry when the
    ids of the list are pairwise distinct, and keeps the other entries in
    their order; when no entry has the id the list is unchanged; no
    error is raised. *)
Theorem delete_filters (w : World) (i : Z) (l : list Session.t) :
  alive w = true -> sessions (st w) = Session.listToJs l ->
  exists l',
    sessions (st (dispatch w (Delete i))) = Session.listToJs l'
    /\ alive (dispatch w (Delete i)) = true
    /\ l' = keepOthers i l
    /\ (forall s, In s l' <-> In s l /\ Session.id s <> i)
    /\ sublist l' l
    /\ (List.NoDup (map Session.id l) -> In i (map Session.id l) -> removesOne i l l')
    /\ (~ In i (map Session.id l) -> l' = l).
Proof.
  intros Ha Hl. exists (keepOthers i l).
  unfold dispatch. rewrite Ha. cbn [handler].
  rewrite (delete_state _ _ _ l) by assumption.
  split; [now rewrite commit_fresh_st |].
  split.
  { unfold commit. cbn [fresh failed next]. cbn [orb negb andb].
    now rewrite (renders_records _ (keepOthers i l)). }
  split; [reflexivity |].
  split.
  { intros s. unfold keepOthers. rewrite List.filter_In.
    rewrite negb_true_iff, Z.eqb_neq. reflexivity. }
  split.
  { unfold keepOthers. clear. induction l as [|s l IH]; [constructor |].
    simpl. destruct (negb (Session.id s =? i)); now constructor. }
  split; [apply keepOthers_unique | apply keepOthers_absent].
Qed.

End DeleteClaim.

Lemma twinWorld_sessions : sessions (st twinWorld) = Session.listToJs twins.
Proof. vm_compute. reflexivity. Qed.

(** C5 (as stated): on a reachable list holding two entries with the same id,
    delete of that id removes both, not exactly one. *)
Lemma delete_twins_removes_both :
  sessions (st (@dispatch Sample.json twinWorld (Delete instant))) = Session.listToJs []
  /\ ~ removesOne instant twins [].
Proof.
  split; [vm_compute; reflexivity |].
  intros (before & s & after & E & _ & E').
  symmetry in E'. apply app_eq_nil in E' as [-> ->].
  discriminate E.
Qed.

Lemma save_zero_noop_witness :
  seconds (st typingWorld) = 0
  /\ @dispatch Sample.json typingWorld (Save 1000 stamp) = typingWorld.
Proof.
  split; [reflexivity |].
  apply (@save_zero_noop Sample.json typingWorld 1000 stamp). reflexivity.
Defined.

Lemma save_prepends_witness :
  (alive listedBlankWorld = true /\ 1 <= seconds (st listedBlankWorld)
   /\ sessions (st listedBlankWorld) = JArr (map Session.toJs listed))
  /\ sessions (st (@dispatch Sample.json listedBlankWorld (Save 1000 stamp)))
     = JArr (JObj [ ("id", JNum (inject_Z 1000));
                    ("note", JStr "Untitled session");
                    ("durationSeconds", JNum (inject_Z 1));
                    ("createdAt", JStr stamp) ] :: map Session.toJs listed)
  /\ alive (@dispatch Sample.json listedBlankWorld (Save 1000 stamp)) = true.
Proof.
  split; [repeat split; vm_compute; congruence |].
  destruct (@save_prepends Sample.json listedBlankWorld 1000 stamp (map Session.toJs listed))
    as (cleaned & _ & Hblank & E & Ealive);
    [reflexivity | vm_compute; congruence | vm_compute; reflexivity |].
  split; [rewrite E, (Hblank eq_refl); reflexivity |].
  rewrite Ealive. vm_compute. reflexivity.
Defined.

Lemma delete_filters_witness :
  (alive listedWorld = true /\ sessions (st listedWorld) = Session.listToJs listed)
  /\ exists l',
      sessions (st (@dispatch Sample.json listedWorld (Delete instant))) = Session.listToJs l'
      /\ removesOne instant listed l'.
Proof.
  split; [split; vm_compute; reflexivity |].
  destruct (@delete_filters Sample.json listedWorld instant listed)
    as (l' & E & _ & _ & _ & _ & Hone & _);
    [reflexivity | vm_compute; reflexivity |].
  exists l'. split; [exact E |].
  apply Hone.
  - repeat constructor; simpl; intuition discriminate.
  - simpl. auto.
Defined.

(** ** Storage traffic *)

Section Traffic.
Context `{Json}.

Lemma tryCatch_ok body m : tryCatch body m = (Ok tt, snd (tryCatch body m)).
Proof. unfold tryCatch. destruct (body m). reflexivity. Qed.

Lemma persistSessions_store v m :
  snd (persistSessions v m)
  = onStore (written sessionsKey (JSON_stringify v)) m.
Proof.
  unfold persistSessions, tryCatch, setItem, written, onStore. simpl.
  destruct (setThrows (store m)); reflexivity.
Qed.

Lemma persistTheme_store t m :
  snd (persistTheme t m) = onStore (written themeKey t) m.
Proof.
  unfold persistTheme, tryCatch, setItem, written, onStore. simpl.
  destruct (setThrows (store m)); reflexivity.
Qed.

Lemma persistSessions_run v m :
  persistSessions v m = (Ok tt, onStore (written sessionsKey (JSON_stringify v)) m).
Proof.
  unfold persistSessions. rewrite tryCatch_ok. fold (persistSessions v).
  now rewrite persistSessions_store.
Qed.

Lemma persistTheme_run t m :
  persistTheme t m = (Ok tt, onStore (written themeKey t) m).
Proof.
  unfold persistTheme. rewrite tryCatch_ok. fold (persistTheme t).
  now rewrite persistTheme_store.
Qed.

Lemma clearAll_state (s : State) (d : Storage) :
  snd (handleClearAll (begin s d))
  = {| next := {| seconds := seconds s; isRunning := isRunning s; note := note s;
                  sessions := JArr []; theme := theme s |};
       fresh := true; failed := false; store := removed sessionsKey d |}.
Proof.
  unfold handleClearAll, mbind, M_bind, setSessions, tryCatch, removeItem, removed,
    begin, onStore. simpl.
  destruct (removeThrows d); reflexivity.
Qed.

Lemma clearAll_world (w : World) :
  alive w = true ->
  dispatch w ClearAll
  = {| st := {| seconds := seconds (st w); isRunning := isRunning (st w);
                note := note (st w); sessions := JArr []; theme := theme (st w) |};
       disk := written sessionsKey (JSON_stringify (JArr []))
                 (removed sessionsKey (disk w));
       alive := true |}.
Proof.
  intros Ha. unfold dispatch. rewrite Ha. cbn [handler].
  rewrite clearAll_state. unfold commit. cbn [fresh failed next theme sessions].
  rewrite String.eqb_refl. cbn [orb negb andb renders render sessions reduceKeys].
  unfold mbind, M_bind. cbn [mret M_ret]. rewrite persistSessions_store. reflexivity.
Qed.

End Traffic.

(** ** Mounting *)

Section Mount.
Context `{Json}.

Lemma load_mem (d : Storage) :
  snd (loadEffect (begin initialState d))
  = {| next := mountedState d;
       fresh := match loadedSessions d with Some _ => true | None => false end;
       failed := false;
       store := afterLoad d |}.
Proof.
  unfold loadEffect, tryCatch, mbind, M_bind, getItem, begin, mountedState,
    loadedSessions, loadedTheme, afterLoad, isThemeName, onStore.
  cbn [store next fresh failed getThrows items record].
  destruct (getThrows d) eqn:G; [reflexivity |].
  destruct (items d !! themeKey) as [t|]; cbn; rewrite ?G.
  - destruct (String.eqb t "light" || String.eqb t "dark"); cbn; rewrite ?G;
      (destruct (items d !! sessionsKey) as [[|c r]|]; cbn; try reflexivity;
       match goal with |- context [JSON_parse ?x] => destruct (JSON_parse x) end;
       reflexivity).
  - destruct (items d !! sessionsKey) as [[|c r]|]; cbn; try reflexivity.
    match goal with |- context [JSON_parse ?x] => destruct (JSON_parse x) end;
      reflexivity.
Qed.

Lemma loadedTheme_name d : loadedTheme d = "dark" \/ loadedTheme d = "light".
Proof.
  unfold loadedTheme, isThemeName. destruct (getThrows d); [now left |].
  destruct (items d !! themeKey) as [t|]; [| now left].
  destruct (String.eqb_spec t "light") as [->|_]; [now right |].
  destruct (String.eqb_spec t "dark") as [->|_]; now left.
Qed.

(** The component after mounting, by what was loaded. *)
Lemma mount_world (d : Storage) :
  mount d
  = match loadedSessions d with
    | None =>
        {| st := mountedState d;
           disk := rewriteTheme (loadedTheme d) (firstPass d);
           alive := true |}
    | Some v =>
        if renders (mountedState d)
        then {| st := mountedState d;
                disk := written sessionsKey (JSON_stringify v)
                          (rewriteTheme (loadedTheme d) (firstPass d));
                alive := true |}
        else {| st := mountedState d; disk := firstPass d; alive := false |}
    end.
Proof.
  unfold mount, mbind, M_bind.
  unfold loadEffect at 1. rewrite tryCatch_ok. fold loadEffect. rewrite load_mem.
  rewrite persistTheme_run, persistSessions_store.
  unfold commit, onStore, samePrimitives. unfold mbind, M_bind.
  cbn [next fresh failed store theme sessions seconds isRunning note initialState mountedState].
  change (String.eqb "" "") with true. cbn [Z.eqb Bool.eqb andb].
  fold (firstPass d). fold (mountedState d).
  unfold rewriteTheme.
  destruct (loadedSessions d) as [v|] eqn:Ev; cbn [orb negb andb].
  - destruct (renders (mountedState d)); cbn [negb]; [| reflexivity].
    destruct (String.eqb "dark" (loadedTheme d)); cbn [mret M_ret];
      rewrite ?persistTheme_run, ?persistSessions_run; unfold onStore;
      cbn [store next snd]; reflexivity.
  - destruct (String.eqb_spec "dark" (loadedTheme d)) as [Et|Et]; cbn [mret M_ret].
    + unfold mountedState. rewrite Ev, <- Et. reflexivity.
    + assert (R : renders (mountedState d) = true).
      { unfold renders, render, mountedState. cbn [sessions]. now rewrite Ev. }
      rewrite R. cbn [negb].
      rewrite ?persistTheme_run; unfold onStore; cbn [store next snd].
      reflexivity.
Qed.

End Mount.

Section Reload.
Context `{Json}.

Lemma written_flags k v d :
  getThrows (written k v d) = getThrows d
  /\ setThrows (written k v d) = setThrows d
  /\ removeThrows (written k v d) = removeThrows d.
Proof. unfold written. destruct (setThrows d) eqn:E; cbn; rewrite ?E; auto. Qed.

Lemma removed_flags k d :
  getThrows (removed k d) = getThrows d
  /\ setThrows (removed k d) = setThrows d
  /\ removeThrows (removed k d) = removeThrows d.
Proof. unfold removed. destruct (removeThrows d) eqn:E; cbn; rewrite ?E; auto. Qed.

Lemma written_log k v d : log (written k v d) = (log d ++ [SetItem k v])%list.
Proof. unfold written. destruct (setThrows d); reflexivity. Qed.

Lemma removed_log k d : log (removed k d) = (log d ++ [RemoveItem k])%list.
Proof. unfold removed. destruct (removeThrows d); reflexivity. Qed.

Lemma written_items k v d :
  items (written k v d) = if setThrows d then items d else <[k := v]> (items d).
Proof. unfold written. destruct (setThrows d); reflexivity. Qed.

Lemma removed_items k d :
  items (removed k d) = if removeThrows d then items d else delete k (items d).
Proof. unfold removed. destruct (removeThrows d); reflexivity. Qed.

(** When nothing is taken from the store the component starts from the
    empty list and keeps running. *)
Lemma mount_recovers (d : Storage) :
  loadedSessions d = None ->
  sessions (st (mount d)) = JArr [] /\ alive (mount d) = true.
Proof.
  intros E. rewrite mount_world, E. unfold mountedState. cbn [st sessions alive].
  now rewrite E.
Qed.

(** The stored values from which nothing is taken: a read that raises,
    a missing entry, the empty string, a text that [JSON.parse] rejects. *)
Lemma nothing_loaded (d : Storage) :
  getThrows d = true
  \/ items d !! sessionsKey = None
  \/ items d !! sessionsKey = Some ""
  \/ (exists s, items d !! sessionsKey = Some s /\ JSON_parse s = None) ->
  loadedSessions d = None.
Proof.
  unfold loadedSessions. intros [G|[E|[E|(s & E & P)]]].
  - now rewrite G.
  - rewrite E. now destruct (getThrows d).
  - rewrite E. now destruct (getThrows d).
  - rewrite E. destruct (getThrows d); [reflexivity |].
    destruct s; [reflexivity | exact P].
Qed.

Lemma something_loaded (d : Storage) (s : string) (v : jsval) :
  getThrows d = false -> items d !! sessionsKey = Some s -> s <> "" ->
  JSON_parse s = Some v -> loadedSessions d = Some v.
Proof.
  intros G E Hne P. unfold loadedSessions. rewrite G, E.
  destruct s; [contradiction | exact P].
Qed.

(** C10: a stored text that is not empty and that [JSON.parse] accepts
    becomes the session list as parsed, whatever its records look like. *)
Theorem load_installs_verbatim (d : Storage) (s : string) (v : jsval) :
  getThrows d = false -> items d !! sessionsKey = Some s -> s <> "" ->
  JSON_parse s = Some v ->
  sessions (st (mount d)) = v.
Proof.
  intros G E Hne P. rewrite mount_world.
  rewrite (something_loaded d s v G E Hne P).
  assert (Hs : sessions (mountedState d) = v).
  { unfold mountedState. cbn [sessions].
    now rewrite (something_loaded d s v G E Hne P). }
  destruct (renders (mountedState d)); exact Hs.
Qed.

(** C7: with the text of an empty JSON object under the sessions key the
    load effect installs that object, the next render raises at
    [sessions.reduce], and the component is gone: the list is not
    recovered to the empty list and no operation has an effect any
    more. *)
Theorem mount_crashes_on_object (d : Storage) :
  getThrows d = false -> items d !! sessionsKey = Some "{}" ->
  JSON_parse "{}" = Some (JObj []) ->
  sessions (st (mount d)) = JObj []
  /\ render (st (mount d)) = Throw
  /\ alive (mount d) = false
  /\ forall a, dispatch (mount d) a = mount d.
Proof.
  intros G E P. rewrite mount_world.
  assert (L : loadedSessions d = Some (JObj [])).
  { apply (something_loaded d "{}"); [assumption | assumption | discriminate | assumption]. }
  rewrite L.
  assert (R : renders (mountedState d) = false).
  { unfold renders, render, mountedState. cbn [sessions]. now rewrite L. }
  rewrite R. cbn [st alive]. unfold mountedState.
  unfold render. cbn [sessions]. rewrite L.
  split; [reflexivity |]. split; [reflexivity |]. split; [reflexivity |].
  intros a. reflexivity.
Qed.

(** C6 (as amended): clearAll empties the session list; its handler
    issues a remove of the sessions key and the effect that persists the
    list then writes ["[]"] under the same key, so that a store that
    accepts writes ends up holding ["[]"]; provided the remove or the
    write goes through, a reload yields the empty session list of a
    first run. *)
Theorem clearAll_then_reload (w : World) :
  alive w = true ->
  JSON_stringify (JArr []) = "[]" ->
  JSON_parse "[]" = Some (JArr []) ->
  sessions (st (dispatch w ClearAll)) = JArr []
  /\ alive (dispatch w ClearAll) = true
  /\ log (disk (dispatch w ClearAll))
     = (log (disk w) ++ [RemoveItem sessionsKey; SetItem sessionsKey "[]"])%list
  /\ (setThrows (disk w) = false ->
      items (disk (dispatch w ClearAll)) !! sessionsKey = Some "[]")
  /\ (setThrows (disk w) = false \/ removeThrows (disk w) = false ->
      sessions (st (mount (disk (dispatch w ClearAll)))) = JArr []
      /\ alive (mount (disk (dispatch w ClearAll))) = true
      /\ sessions (st (mount (disk (dispatch w ClearAll))))
         = sessions (st (mount emptyStorage))).
Proof.
  intros Ha Hs Hp. rewrite clearAll_world by assumption. rewrite Hs.
  cbn [st sessions alive disk].
  set (d' := written sessionsKey "[]" (removed sessionsKey (disk w))).
  assert (Hitems : setThrows (disk w) = false -> items d' !! sessionsKey = Some "[]").
  { intros S. unfold d'. rewrite written_items.
    destruct (removed_flags sessionsKey (disk w)) as (_ & -> & _). rewrite S.
    apply lookup_insert_eq. }
  split; [reflexivity |]. split; [reflexivity |].
  split.
  { unfold d'. rewrite written_log, removed_log, <- app_assoc. reflexivity. }
  split; [exact Hitems |].
  intros Hstore.
  assert (Hfresh : sessions (st (mount emptyStorage)) = JArr []).
  { apply mount_recovers, nothing_loaded. right; left. apply lookup_empty. }
  rewrite Hfresh.
  assert (Hflags : getThrows d' = getThrows (disk w)).
  { unfold d'. destruct (written_flags sessionsKey "[]" (removed sessionsKey (disk w))) as (-> & _).
    now destruct (removed_flags sessionsKey (disk w)) as (-> & _). }
  destruct (getThrows (disk w)) eqn:G.
  { destruct (mount_recovers d') as [E1 E2];
      [apply nothing_loaded; now left | now rewrite E1, E2]. }
  destruct (setThrows (disk w)) eqn:S.
  - destruct Hstore as [|R]; [discriminate |].
    destruct (mount_recovers d') as [E1 E2]; [| now rewrite E1, E2].
    apply nothing_loaded. right; left. unfold d'. rewrite written_items.
    destruct (removed_flags sessionsKey (disk w)) as (_ & -> & _). rewrite S.
    rewrite removed_items, R. apply lookup_delete_eq.
  - assert (L : loadedSessions d' = Some (JArr [])).
    { apply (something_loaded d' "[]"); [congruence | now apply Hitems | discriminate | assumption]. }
    rewrite mount_world, L.
    assert (R : renders (mountedState d') = true).
    { unfold renders, render, mountedState. cbn [sessions]. now rewrite L. }
    rewrite R. cbn [st alive]. unfold mountedState. cbn [sessions]. now rewrite L.
Qed.

End Reload.

(** ** What reaches the store *)

Section Invariant.
Context `{Json}.

Lemma handler_frame (a : action) (s : State) (d : Storage) :
  let m := snd (handler a s (begin s d)) in
  (store m = d \/ (fresh m = true /\ store m = removed sessionsKey d))
  /\ (theme (next m) = theme s
      \/ theme (next m) = (if String.eqb (theme s) "dark" then "light" else "dark"))
  /\ (fresh m = false -> sessions (next m) = sessions s).
Proof.
  destruct a; cbn [handler].
  1-3, 5, 9: (cbn; auto).
  - destruct (isRunning s); cbn; auto.
  - unfold handleSaveSession. destruct (seconds s =? 0); [cbn; auto |].
    unfold mbind, M_bind, setSessions, begin. cbn [next sessions].
    destruct (prepend _ (sessions s)); cbn; auto. split; [auto |]. split; [auto |].
    discriminate.
  - unfold handleDeleteSession, setSessions, begin. cbn [next sessions].
    destruct (withoutId id (sessions s)); cbn; auto. split; [auto |]. split; [auto |].
    discriminate.
  - rewrite clearAll_state. cbn. split; [auto |]. split; [auto |]. discriminate.
Qed.

Lemma good_written_theme t d :
  isTheme t -> Forall goodEvent (log d) -> Forall goodEvent (log (written themeKey t d)).
Proof.
  intros Ht Hd. rewrite written_log. apply Forall_app. split; [assumption |].
  constructor; [| constructor]. left. split; [reflexivity | assumption].
Qed.

Lemma good_written_sessions v d :
  Forall goodEvent (log d) ->
  Forall goodEvent (log (written sessionsKey (JSON_stringify v) d)).
Proof.
  intros Hd. rewrite written_log. apply Forall_app. split; [assumption |].
  constructor; [| constructor]. right. split; [reflexivity | eauto].
Qed.

Lemma good_removed d :
  Forall goodEvent (log d) -> Forall goodEvent (log (removed sessionsKey d)).
Proof.
  intros Hd. rewrite removed_log. apply Forall_app. split; [assumption |].
  constructor; [reflexivity | constructor].
Qed.

Lemma good_afterLoad d : Forall goodEvent (log d) -> Forall goodEvent (log (afterLoad d)).
Proof.
  intros Hd. unfold afterLoad. destruct (getThrows d); cbn [record log].
  - apply Forall_app. split; [assumption |].
    constructor; [left; reflexivity | constructor].
  - apply Forall_app. split; [apply Forall_app; split; [assumption |] |].
    + constructor; [left; reflexivity | constructor].
    + constructor; [right; reflexivity | constructor].
Qed.

Lemma items_written_same k v d :
  setThrows d = false -> items (written k v d) !! k = Some v.
Proof. intros S. rewrite written_items, S. apply lookup_insert_eq. Qed.

Lemma items_written_other k k' v d :
  k <> k' -> items (written k v d) !! k' = items d !! k'.
Proof.
  intros Hne. rewrite written_items. destruct (setThrows d); [reflexivity |].
  now apply lookup_insert_ne.
Qed.

Lemma items_removed_other k k' d :
  k <> k' -> items (removed k d) !! k' = items d !! k'.
Proof.
  intros Hne. rewrite removed_items. destruct (removeThrows d); [reflexivity |].
  now apply lookup_delete_ne.
Qed.

End Invariant.

Section Preservation.
Context `{Json}.

Lemma setThrows_written k v d : setThrows (written k v d) = setThrows d.
Proof. apply written_flags. Qed.

Lemma setThrows_removed k d : setThrows (removed k d) = setThrows d.
Proof. apply removed_flags. Qed.

Lemma setThrows_afterLoad d : setThrows (afterLoad d) = setThrows d.
Proof. unfold afterLoad. destruct (getThrows d); reflexivity. Qed.

Lemma setThrows_rewriteTheme t d : setThrows (rewriteTheme t d) = setThrows d.
Proof.
  unfold rewriteTheme. destruct (String.eqb "dark" t); [reflexivity |].
  apply setThrows_written.
Qed.

Lemma setThrows_firstPass d : setThrows (firstPass d) = setThrows d.
Proof.
  unfold firstPass. now rewrite !setThrows_written, setThrows_afterLoad.
Qed.

Lemma keys_differ : themeKey <> sessionsKey.
Proof. discriminate. Qed.

Lemma isTheme_toggle t :
  isTheme (if String.eqb t "dark" then "light" else "dark").
Proof. destruct (String.eqb t "dark"); [now right | now left]. Qed.

(** Rendering the queued state keeps the invariant, given what the
    handler left in the store. *)
Lemma commit_inv (old : State) (m : Mem) :
  isTheme (theme (next m)) ->
  Forall goodEvent (log (store m)) ->
  (setThrows (store m) = false -> theme (next m) = theme old ->
   items (store m) !! themeKey = Some (theme old)) ->
  (setThrows (store m) = false -> fresh m = false ->
   items (store m) !! sessionsKey = Some (JSON_stringify (sessions old))) ->
  (fresh m = false -> sessions (next m) = sessions old) ->
  inv (commit old m).
Proof.
  intros Hth Hlog Ht Hs Hsame. unfold commit, inv.
  destruct (negb (fresh m || failed m) && samePrimitives old (next m)) eqn:Bail.
  { cbn [st disk alive]. apply andb_true_iff in Bail as [Hq Hp].
    apply negb_true_iff, orb_false_iff in Hq as [Hfresh _].
    unfold samePrimitives in Hp. apply andb_true_iff in Hp as [_ Hp].
    apply String.eqb_eq in Hp.
    split; [now rewrite Hp |]. split; [assumption |].
    intros _ S. split; [apply Ht; auto | apply Hs; auto]. }
  destruct (failed m || negb (renders (next m))) eqn:Dead.
  { cbn [st disk alive]. split; [assumption |]. split; [assumption |]. discriminate. }
  unfold mbind, M_bind. cbn [st disk alive].
  split; [assumption |].
  destruct (String.eqb_spec (theme old) (theme (next m))) as [Et|Et]; cbn [mret M_ret].
  - destruct (fresh m) eqn:F.
    + rewrite persistSessions_run. cbn [mret M_ret snd store onStore].
      split; [now apply good_written_sessions |].
      intros _ S. rewrite setThrows_written in S. split.
      * rewrite items_written_other by (intros E; symmetry in E; now apply keys_differ in E).
        rewrite <- Et. now apply Ht.
      * now apply items_written_same.
    + cbn [mret M_ret snd]. split; [assumption |].
      intros _ S. split; [rewrite <- Et; now apply Ht |].
      rewrite Hsame by reflexivity. now apply Hs.
  - rewrite persistTheme_run. destruct (fresh m) eqn:F.
    + rewrite persistSessions_run. cbn [mret M_ret snd store onStore].
      split; [now apply good_written_sessions, good_written_theme |].
      intros _ S. rewrite !setThrows_written in S. split.
      * rewrite items_written_other by (intros E; symmetry in E; now apply keys_differ in E).
        now apply items_written_same.
      * apply items_written_same. now rewrite setThrows_written.
    + cbn [mret M_ret snd store onStore]. split; [now apply good_written_theme |].
      intros _ S. rewrite setThrows_written in S. split.
      * now apply items_written_same.
      * rewrite items_written_other by apply keys_differ.
        rewrite Hsame by reflexivity. now apply Hs.
Qed.

Lemma dispatch_inv (w : World) (a : action) : inv w -> inv (dispatch w a).
Proof.
  intros (Hth & Hlog & Hmir). unfold dispatch.
  destruct (alive w) eqn:Ha;
    [| unfold inv; rewrite Ha; split; [| split]; [assumption | assumption | discriminate]].
  destruct (handler_frame a (st w) (disk w)) as (Hstore & Htheme & Hsess).
  set (m := snd (handler a (st w) (begin (st w) (disk w)))) in *.
  apply commit_inv.
  - destruct Htheme as [->| ->]; [assumption | apply isTheme_toggle].
  - destruct Hstore as [->|[_ ->]]; [assumption | now apply good_removed].
  - intros S _. destruct Hstore as [E|[_ E]]; rewrite E in *.
    + now apply Hmir.
    + rewrite setThrows_removed in S.
      rewrite items_removed_other by (intros E'; symmetry in E'; now apply keys_differ in E').
      now apply Hmir.
  - intros S F. destruct Hstore as [E|[F' _]]; [| congruence].
    rewrite E in *. now apply Hmir.
  - exact Hsess.
Qed.

Lemma runActions_inv (acts : list action) : forall w, inv w -> inv (runActions w acts).
Proof.
  induction acts as [|a acts IH]; intros w Hw; [exact Hw |].
  simpl. apply IH. now apply dispatch_inv.
Qed.

Lemma good_firstPass d : Forall goodEvent (log d) -> Forall goodEvent (log (firstPass d)).
Proof.
  intros Hd. unfold firstPass.
  apply good_written_sessions, good_written_theme; [now left |].
  now apply good_afterLoad.
Qed.

Lemma good_rewriteTheme t d :
  isTheme t -> Forall goodEvent (log d) -> Forall goodEvent (log (rewriteTheme t d)).
Proof.
  intros Ht Hd. unfold rewriteTheme. destruct (String.eqb "dark" t); [assumption |].
  now apply good_written_theme.
Qed.

Lemma rewriteTheme_theme t d :
  setThrows d = false -> items d !! themeKey = Some "dark" ->
  items (rewriteTheme t d) !! themeKey = Some t.
Proof.
  intros S E. unfold rewriteTheme.
  destruct (String.eqb_spec "dark" t) as [<-|_]; [assumption |].
  now apply items_written_same.
Qed.

Lemma rewriteTheme_sessions t d :
  items (rewriteTheme t d) !! sessionsKey = items d !! sessionsKey.
Proof.
  unfold rewriteTheme. destruct (String.eqb "dark" t); [reflexivity |].
  apply items_written_other, keys_differ.
Qed.

Lemma firstPass_items d :
  setThrows d = false ->
  items (firstPass d) !! themeKey = Some "dark"
  /\ items (firstPass d) !! sessionsKey = Some (JSON_stringify (JArr [])).
Proof.
  intros S. unfold firstPass. split.
  - rewrite items_written_other by (intros E; symmetry in E; now apply keys_differ in E).
    apply items_written_same. now rewrite setThrows_afterLoad.
  - apply items_written_same. now rewrite setThrows_written, setThrows_afterLoad.
Qed.

Lemma mount_inv (d : Storage) : Forall goodEvent (log d) -> inv (mount d).
Proof.
  intros Hd. rewrite mount_world.
  pose proof (loadedTheme_name d) as Hth.
  assert (Hth' : isTheme (loadedTheme d)) by exact Hth.
  destruct (loadedSessions d) as [v|] eqn:L.
  - destruct (renders (mountedState d)).
    + split; [exact Hth' |]. cbn [disk alive st].
      split; [now apply good_written_sessions, good_rewriteTheme, good_firstPass |].
      intros _ S. rewrite setThrows_written, setThrows_rewriteTheme, setThrows_firstPass in S.
      destruct (firstPass_items d S) as [Et Es]. split.
      * rewrite items_written_other by (intros E; symmetry in E; now apply keys_differ in E).
        apply rewriteTheme_theme; [now rewrite setThrows_firstPass | assumption].
      * unfold mountedState. cbn [sessions]. rewrite L. cbn.
        apply items_written_same.
        now rewrite setThrows_rewriteTheme, setThrows_firstPass.
    + split; [exact Hth' |]. split; [now apply good_firstPass | discriminate].
  - split; [exact Hth' |]. cbn [disk alive st].
    split; [now apply good_rewriteTheme, good_firstPass |].
    intros _ S. rewrite setThrows_rewriteTheme, setThrows_firstPass in S.
    destruct (firstPass_items d S) as [Et Es]. split.
    + apply rewriteTheme_theme; [now rewrite setThrows_firstPass | assumption].
    + rewrite rewriteTheme_sessions. unfold mountedState. cbn [sessions].
      rewrite L. exact Es.
Qed.

(** C8 (as amended): from mounting on, every read and write of the
    component goes to the key ["quicknote_theme"] or the key
    ["quicknote_sessions"]; what is written under the first is exactly
    ["dark"] or ["light"], what is written under the second is the JSON
    encoding of the session list; and while the component runs on a
    store that takes writes, the two entries hold the current theme and
    the encoding of the current list. *)
Theorem storage_keys (d : Storage) (acts : list action) :
  log d = [] ->
  Forall goodEvent (log (disk (runActions (mount d) acts)))
  /\ Forall (fun e => eventKey e = "quicknote_theme" \/ eventKey e = "quicknote_sessions")
       (log (disk (runActions (mount d) acts)))
  /\ isTheme (theme (st (runActions (mount d) acts)))
  /\ (alive (runActions (mount d) acts) = true ->
      setThrows (disk (runActions (mount d) acts)) = false ->
      mirrored (st (runActions (mount d) acts)) (disk (runActions (mount d) acts))).
Proof.
  intros Hlog.
  destruct (runActions_inv acts (mount d)) as (Hth & Hev & Hmir).
  { apply mount_inv. rewrite Hlog. constructor. }
  split; [exact Hev |]. split; [| split; assumption].
  eapply Forall_impl; [exact Hev |].
  intros [k|k v|k]; cbn; intuition.
Qed.

End Preservation.

(** ** Concrete runs *)

Lemma load_installs_verbatim_witness :
  (getThrows (storing sessionsKey Sample.oddText) = false
   /\ items (storing sessionsKey Sample.oddText) !! sessionsKey = Some Sample.oddText
   /\ Sample.oddText <> ""
   /\ Sample.parse Sample.oddText = Some Sample.oddValue)
  /\ sessions (st (@mount Sample.json (storing sessionsKey Sample.oddText))) = Sample.oddValue.
Proof.
  assert (Hhyp : getThrows (storing sessionsKey Sample.oddText) = false
                 /\ items (storing sessionsKey Sample.oddText) !! sessionsKey
                    = Some Sample.oddText
                 /\ Sample.oddText <> ""
                 /\ Sample.parse Sample.oddText = Some Sample.oddValue).
  { repeat split; try (vm_compute; reflexivity). vm_compute. discriminate. }
  split; [exact Hhyp |].
  destruct Hhyp as (G & E & Hne & P).
  exact (@load_installs_verbatim Sample.json _ _ _ G E Hne P).
Defined.

Lemma mount_crashes_on_object_witness :
  (getThrows (storing sessionsKey "{}") = false
   /\ items (storing sessionsKey "{}") !! sessionsKey = Some "{}"
   /\ Sample.parse "{}" = Some (JObj []))
  /\ alive (@mount Sample.json (storing sessionsKey "{}")) = false.
Proof.
  split; [repeat split; vm_compute; reflexivity |].
  apply (@mount_crashes_on_object Sample.json (storing sessionsKey "{}"));
    vm_compute; reflexivity.
Defined.

(** C6 (as stated): after clearAll on a list of two sessions the store
    does hold the string ["[]"] under the sessions key: the remove issued
    by the handler is followed by a write of ["[]"]. *)
Lemma clearAll_writes_empty_list :
  items (disk (@dispatch Sample.json listedWorld ClearAll)) !! sessionsKey = Some "[]"
  /\ exists earlier,
      log (disk (@dispatch Sample.json listedWorld ClearAll))
      = (earlier ++ [RemoveItem "quicknote_sessions"; SetItem "quicknote_sessions" "[]"])%list.
Proof.
  split; [vm_compute; reflexivity |].
  eexists. rewrite (@clearAll_world Sample.json) by (vm_compute; reflexivity).
  cbn [disk]. rewrite written_log, removed_log, <- app_assoc. reflexivity.
Qed.

Lemma clearAll_then_reload_witness :
  (alive listedWorld = true
   /\ Sample.stringify (JArr []) = "[]"
   /\ Sample.parse "[]" = Some (JArr []))
  /\ sessions (st (@mount Sample.json (disk (@dispatch Sample.json listedWorld ClearAll))))
     = JArr [].
Proof.
  split; [repeat split; vm_compute; reflexivity |].
  destruct (@clearAll_then_reload Sample.json listedWorld) as (_ & _ & _ & _ & Hreload);
    [vm_compute; reflexivity | reflexivity | reflexivity |].
  apply Hreload. left. vm_compute. reflexivity.
Defined.

(** C8 (as stated): mounting on an empty store makes four calls, none
    under the key [theme] or the key [sessions]. *)
Lemma storage_keys_are_prefixed :
  log (disk (@mount Sample.json emptyStorage))
  = [ GetItem "quicknote_theme"; GetItem "quicknote_sessions";
      SetItem "quicknote_theme" "dark"; SetItem "quicknote_sessions" "[]" ]
  /\ Forall (fun e => eventKey e <> "theme" /\ eventKey e <> "sessions")
       (log (disk (@mount Sample.json emptyStorage))).
Proof.
  split; [vm_compute; reflexivity |].
  vm_compute. repeat constructor; discriminate.
Qed.

Lemma storage_keys_witness :
  log emptyStorage = []
  /\ Forall (fun e => eventKey e = "quicknote_theme" \/ eventKey e = "quicknote_sessions")
       (log (disk (@runActions Sample.json (@mount Sample.json emptyStorage)
                     (sameClockRun ++ [ToggleTheme; Delete instant; ClearAll])))).
Proof.
  split; [reflexivity |].
  apply (@storage_keys Sample.json emptyStorage
           (sameClockRun ++ [ToggleTheme; Delete instant; ClearAll])).
  reflexivity.
Defined.

(** C9: in a run where [Date.now()] reads the same millisecond at two
    saves, both sessions get that reading as their id and the list holds
    the id twice. *)
Theorem same_clock_same_id :
  alive twinWorld = true
  /\ idsOf (sessions (st twinWorld))
     = [ Some (JNum (inject_Z instant)); Some (JNum (inject_Z instant)) ]
  /\ ~ List.NoDup (idsOf (sessions (st twinWorld))).
Proof.
  split; [vm_compute; reflexivity |].
  assert (E : idsOf (sessions (st twinWorld))
              = [ Some (JNum (inject_Z instant)); Some (JNum (inject_Z instant)) ])
    by (vm_compute; reflexivity).
  split; [exact E |].
  rewrite E. intros Hnd. apply List.NoDup_cons_iff in Hnd as [Hin _].
  apply Hin. now left.
Qed.


(** * Further properties *)

(** ** Printed times read back *)

Lemma isDigit_not_colon c : isDigit c = true -> isColon c = false.
Proof.
  unfold isDigit, isColon. intros Hd. apply andb_true_iff in Hd as [_ Hd].
  apply Z.leb_le in Hd. apply Z.eqb_neq. lia.
Qed.

Lemma colon_split a b :
  allDigits a = true ->
  upToColon (a ++ ":" ++ b) = a /\ afterColon (a ++ ":" ++ b) = b.
Proof.
  induction a as [|c a IH]; [intros _; split; reflexivity |].
  simpl. intros Hd. apply andb_true_iff in Hd as [Hc Ha].
  rewrite (isDigit_not_colon c Hc). destruct (IH Ha) as [-> ->]. split; reflexivity.
Qed.

Lemma formatTime_parts s :
  0 <= s ->
  let hh := padStart 2 "0" (ofInt (s / 3600)) in
  let mm := padStart 2 "0" (ofInt (s mod 3600 / 60)) in
  let ss := padStart 2 "0" (ofInt (s mod 60)) in
  formatTime s = hh ++ ":" ++ mm ++ ":" ++ ss
  /\ field hh (s / 3600) /\ field mm (s mod 3600 / 60) /\ field ss (s mod 60)
  /\ String.length mm = 2%nat /\ String.length ss = 2%nat
  /\ (s < 360000 -> String.length hh = 2%nat)
  /\ (360000 <= s -> (3 <= String.length hh)%nat).
Proof.
  intros Hs. cbv zeta. unfold formatTime. rewrite !Z.rem_mod_nonneg by lia.
  assert (Hh : 0 <= s / 3600) by (apply Z.div_pos; lia).
  pose proof (Z.mod_pos_bound s 3600 ltac:(lia)) as Hm3600.
  assert (Hm : 0 <= s mod 3600 / 60 < 60).
  { split; [apply Z.div_pos; lia | apply Z.div_lt_upper_bound; lia]. }
  pose proof (Z.mod_pos_bound s 60 ltac:(lia)) as Hr.
  destruct (pad2_field (s / 3600) Hh) as (Fh & _ & Hh2 & _).
  destruct (pad2_field (s mod 3600 / 60) ltac:(lia)) as (Fm & _ & Hm2 & _).
  destruct (pad2_field (s mod 60) ltac:(lia)) as (Fs & _ & Hs2 & _).
  split; [reflexivity |]. split; [exact Fh |]. split; [exact Fm |]. split; [exact Fs |].
  split; [apply Hm2; lia |]. split; [apply Hs2; lia |].
  split.
  - intros Hlt. apply Hh2. apply Z.div_lt_upper_bound; lia.
  - intros Hge. assert (100 <= s / 3600) by (apply Z.div_le_lower_bound; lia).
    rewrite pad2_long by assumption. now apply decimal_long.
Qed.

Lemma readTime_formatTime s : 0 <= s -> readTime (formatTime s) = s.
Proof.
  intros Hs.
  destruct (formatTime_parts s Hs) as (E & (Dh & Vh) & (Dm & Vm) & (Ds & Vs) & _).
  cbv zeta in E. rewrite E. unfold readTime.
  destruct (colon_split (padStart 2 "0" (ofInt (s / 3600)))
              (padStart 2 "0" (ofInt (s mod 3600 / 60)) ++ ":"
               ++ padStart 2 "0" (ofInt (s mod 60))) Dh) as [-> ->].
  destruct (colon_split (padStart 2 "0" (ofInt (s mod 3600 / 60)))
              (padStart 2 "0" (ofInt (s mod 60))) Dm) as [-> ->].
  rewrite Vh, Vm, Vs.
  pose proof (Z.div_mod s 3600 ltac:(lia)) as E1.
  pose proof (Z.div_mod (s mod 3600) 60 ltac:(lia)) as E2.
  assert (E3 : (s mod 3600) mod 60 = s mod 60).
  { symmetry. rewrite (Z.div_mod s 3600) at 1 by lia.
    replace (3600 * (s / 3600)) with ((60 * (s / 3600)) * 60) by lia.
    rewrite Z.add_comm, Z.mod_add by lia. reflexivity. }
  lia.
Qed.

(** X1: the text that [formatTime] prints for a non-negative safe integer
    number of seconds (at most 2^53 - 1) reads back as that number, so two
    different such durations never print as the same text. *)
Theorem formatTime_reads_back (a b : Z)
  (Ha : 0 <= a <= maxSafeInteger) (Hb : 0 <= b <= maxSafeInteger) :
  readTime (formatTime a) = a
  /\ (formatTime a = formatTime b -> a = b).
Proof.
  split; [apply readTime_formatTime, Ha |].
  intros E.
  rewrite <- (readTime_formatTime a (proj1 Ha)), <- (readTime_formatTime b (proj1 Hb)).
  now rewrite E.
Qed.

Lemma formatTime_reads_back_witness :
  (0 <= 86399 <= maxSafeInteger /\ 0 <= 86400 <= maxSafeInteger)
  /\ readTime (formatTime 86399) = 86399
  /\ (formatTime 86399 = formatTime 86400 -> 86399 = 86400).
Proof.
  assert (Ha : 0 <= 86399 <= maxSafeInteger) by (split; [lia | vm_compute; discriminate]).
  assert (Hb : 0 <= 86400 <= maxSafeInteger) by (split; [lia | vm_compute; discriminate]).
  split; [split; assumption |]. apply (formatTime_reads_back 86399 86400 Ha Hb).
Defined.

(** X2: the printed time has exactly eight characters below one hundred
    hours and more than eight from one hundred hours on. *)
Theorem formatTime_length (s : Z) (Hs : 0 <= s) :
  (s < 360000 -> String.length (formatTime s) = 8%nat)
  /\ (360000 <= s -> (9 <= String.length (formatTime s))%nat).
Proof.
  destruct (formatTime_parts s Hs) as (E & _ & _ & _ & Lm & Ls & Lh2 & Lh3).
  cbv zeta in *. rewrite E, !length_app, Lm, Ls. simpl.
  split; intros Hb; [rewrite (Lh2 Hb); reflexivity | specialize (Lh3 Hb); lia].
Qed.

Lemma formatTime_length_witness :
  0 <= 360000
  /\ (360000 <= 360000 -> (9 <= String.length (formatTime 360000))%nat).
Proof.
  split; [lia |]. apply (formatTime_length 360000). lia.
Defined.

(** ** The timer *)

Section Timer.
Context `{Json}.

Lemma handler_timer (a : action) (s : State) (d : Storage) :
  seconds (next (snd (handler a s (begin s d)))) = secondsAfter a s
  /\ isRunning (next (snd (handler a s (begin s d)))) = runningAfter a s.
Proof.
  destruct a; cbn [handler secondsAfter runningAfter].
  1-3, 5, 9: (cbn; auto).
  - destruct (isRunning s) eqn:R; cbn; rewrite ?R; auto.
  - unfold handleSaveSession. destruct (Z.eqb_spec (seconds s) 0) as [E|_]; [cbn; auto |].
    unfold mbind, M_bind, setSessions, begin. cbn [next sessions].
    destruct (prepend _ (sessions s)); cbn; auto.
  - unfold handleDeleteSession, setSessions, begin. cbn [next sessions].
    destruct (withoutId id (sessions s)); cbn; auto.
  - rewrite clearAll_state. cbn. auto.
Qed.

(** The state after a commit is the queued state. *)
Lemma commit_st (old : State) (m : Mem) :
  (fresh m = false -> sessions (next m) = sessions old) ->
  seconds (st (commit old m)) = seconds (next m)
  /\ isRunning (st (commit old m)) = isRunning (next m)
  /\ note (st (commit old m)) = note (next m)
  /\ theme (st (commit old m)) = theme (next m)
  /\ sessions (st (commit old m)) = sessions (next m).
Proof.
  intros Hsame. unfold commit.
  destruct (negb (fresh m || failed m) && samePrimitives old (next m)) eqn:Bail.
  - apply andb_true_iff in Bail as [Hq Hp].
    apply negb_true_iff, orb_false_iff in Hq as [Hfresh _].
    unfold samePrimitives in Hp.
    apply andb_true_iff in Hp as [Hp Ht]. apply andb_true_iff in Hp as [Hp Hn].
    apply andb_true_iff in Hp as [Hs Hr].
    apply Z.eqb_eq in Hs. apply String.eqb_eq in Ht, Hn. apply Bool.eqb_prop in Hr.
    cbn [st]. rewrite (Hsame Hfresh). repeat (split; [assumption |]). reflexivity.
  - destruct (failed m || negb (renders (next m))); cbn [st]; repeat split.
Qed.

Lemma dispatch_st (w : World) (a : action) :
  alive w = true ->
  let m := snd (handler a (st w) (begin (st w) (disk w))) in
  seconds (st (dispatch w a)) = seconds (next m)
  /\ isRunning (st (dispatch w a)) = isRunning (next m)
  /\ note (st (dispatch w a)) = note (next m)
  /\ theme (st (dispatch w a)) = theme (next m)
  /\ sessions (st (dispatch w a)) = sessions (next m).
Proof.
  intros Ha. cbv zeta. unfold dispatch. rewrite Ha.
  apply commit_st. apply (handler_frame a (st w) (disk w)).
Qed.

(** The elapsed seconds change in three ways only: a tick while the timer
    runs adds one, a reset and a save set them to zero; the timer runs
    after a start and stops at a pause, a reset and a save that creates a
    session. *)
Lemma timer_steps (w : World) (a : action) :
  alive w = true ->
  seconds (st (dispatch w a)) = secondsAfter a (st w)
  /\ isRunning (st (dispatch w a)) = runningAfter a (st w).
Proof.
  intros Ha. destruct (dispatch_st w a Ha) as (-> & -> & _).
  apply handler_timer.
Qed.

Lemma renders_same_sessions (a b : State) :
  sessions a = sessions b -> renders a = renders b.
Proof. intros E. unfold renders, render. now rewrite E. Qed.

(** In every run the theme is one of the two names, the elapsed seconds
    are not negative, and a component that is still mounted renders. *)
Lemma reachable_facts (w : World) :
  reachable w ->
  isTheme (theme (st w)) /\ 0 <= seconds (st w) /\ (alive w = true -> renders (st w) = true).
Proof.
  induction 1 as [d | w a Hw (Hth & Hsec & Hren)].
  - rewrite mount_world. pose proof (loadedTheme_name d) as Ht.
    destruct (loadedSessions d) as [v|] eqn:L.
    + destruct (renders (mountedState d)) eqn:R; cbn [st alive];
        (split; [exact Ht |]; split; [reflexivity |]); [auto | discriminate].
    + cbn [st alive]. split; [exact Ht |]. split; [reflexivity |]. intros _.
      unfold renders, render, mountedState. cbn [sessions]. now rewrite L.
  - destruct (alive w) eqn:Ha;
      [| unfold dispatch; rewrite Ha;
         split; [assumption | split; [assumption | rewrite Ha; discriminate]]].
    destruct (dispatch_st w a Ha) as (Es & _ & _ & Et & Ess).
    destruct (handler_timer a (st w) (disk w)) as (Es' & _).
    destruct (handler_frame a (st w) (disk w)) as (_ & Htheme & Hsess).
    split; [| split].
    + rewrite Et. destruct Htheme as [->| ->]; [assumption | apply isTheme_toggle].
    + rewrite Es, Es'. destruct a; cbn [secondsAfter]; try lia.
      destruct (isRunning (st w)); lia.
    + unfold dispatch. rewrite Ha. unfold commit.
      destruct (negb (fresh _ || failed _) && samePrimitives _ _); [cbn [st alive]; auto |].
      destruct (failed _ || negb (renders _)) eqn:Dead; cbn [st alive]; [discriminate |].
      intros _. apply orb_false_iff in Dead as [_ Dead]. now apply negb_false_iff in Dead.
Qed.

Lemma runActions_reachable (acts : list action) :
  forall w, reachable w -> reachable (runActions w acts).
Proof.
  induction acts as [|a acts IH]; intros w Hw; [exact Hw |].
  simpl. apply IH. now constructor.
Qed.

Lemma tick_world (w : World) :
  alive w = true -> renders (st w) = true -> isRunning (st w) = true ->
  dispatch w Tick
  = {| st := {| seconds := seconds (st w) + 1; isRunning := true; note := note (st w);
                sessions := sessions (st w); theme := theme (st w) |};
       disk := disk w; alive := true |}.
Proof.
  intros Ha Hr Hrun. unfold dispatch. rewrite Ha. cbn [handler]. rewrite Hrun.
  unfold tick, setSeconds, begin, onState. cbn [snd next].
  unfold commit, samePrimitives.
  cbn [fresh failed next store seconds isRunning note theme sessions orb negb].
  destruct (Z.eqb_spec (seconds (st w)) (seconds (st w) + 1)) as [E|_]; [lia |].
  cbn [andb].
  rewrite (renders_same_sessions _ (st w)) by reflexivity. rewrite Hr. cbn [negb].
  rewrite String.eqb_refl. unfold mbind, M_bind. cbn [mret M_ret snd store].
  now rewrite Hrun.
Qed.

Lemma ticks_world (n : nat) : forall w,
  alive w = true -> renders (st w) = true -> isRunning (st w) = true ->
  runActions w (repeat Tick n)
  = {| st := {| seconds := seconds (st w) + Z.of_nat n; isRunning := true;
                note := note (st w); sessions := sessions (st w); theme := theme (st w) |};
       disk := disk w; alive := true |}.
Proof.
  induction n as [|n IH]; intros w Ha Hr Hrun.
  - simpl. destruct w as [[] ? ?]. simpl in *. subst. now rewrite Z.add_0_r.
  - cbn [repeat runActions fold_left]. fold (runActions (dispatch w Tick) (repeat Tick n)).
    rewrite tick_world by assumption. rewrite IH; cbn [st alive disk seconds isRunning note sessions theme];
      [| reflexivity | now rewrite (renders_same_sessions _ (st w)) | reflexivity].
    do 2 f_equal. lia.
Qed.

Lemma seconds_step (w : World) (a : action) :
  0 <= seconds (st w) ->
  0 <= seconds (st (dispatch w a)) <= seconds (st w) + ticksIn [a].
Proof.
  intros Hs. destruct (alive w) eqn:Ha.
  - destruct (timer_steps w a Ha) as [-> _].
    destruct a; cbn [secondsAfter]; unfold ticksIn; cbn; try lia.
    destruct (isRunning (st w)); lia.
  - unfold dispatch. rewrite Ha. unfold ticksIn.
    pose proof (Nat2Z.is_nonneg (length (List.filter (fun a => match a with Tick => true | _ => false end) [a]))).
    lia.
Qed.

Lemma ticksIn_cons (a : action) (acts : list action) :
  ticksIn (a :: acts) = ticksIn [a] + ticksIn acts.
Proof. unfold ticksIn. cbn [List.filter]. destruct a; cbn [length app]; lia. Qed.

Lemma seconds_run (acts : list action) : forall w,
  0 <= seconds (st w) ->
  0 <= seconds (st (runActions w acts)) <= seconds (st w) + ticksIn acts.
Proof.
  induction acts as [|a acts IH]; intros w Hs; [unfold ticksIn; simpl; lia |].
  change (runActions w (a :: acts)) with (runActions (dispatch w a) acts).
  pose proof (seconds_step w a Hs) as Hstep.
  assert (Hs' : 0 <= seconds (st (dispatch w a))) by lia.
  specialize (IH (dispatch w a) Hs'). rewrite ticksIn_cons. lia.
Qed.

(** X3: whatever the store and the actions, the elapsed seconds are never
    negative and never more than the number of ticks since mounting. *)
Theorem seconds_bounded_by_ticks (d : Storage) (acts : list action) :
  0 <= seconds (st (runActions (mount d) acts)) <= ticksIn acts.
Proof.
  assert (E : seconds (st (mount d)) = 0).
  { rewrite mount_world. destruct (loadedSessions d); [destruct (renders _) |]; reflexivity. }
  pose proof (seconds_run acts (mount d)) as Hrun. rewrite E in Hrun.
  assert (H0 : 0 <= 0) by lia. specialize (Hrun H0). lia.
Qed.

(** X4: in a run, [n] ticks while the timer runs add exactly [n] seconds
    and change nothing else, the store included; ticks while the timer is
    stopped change nothing at all. *)
Theorem ticks_count (w : World) (n : nat) :
  reachable w -> alive w = true ->
  (isRunning (st w) = true ->
   runActions w (repeat Tick n)
   = {| st := {| seconds := seconds (st w) + Z.of_nat n; isRunning := true;
                 note := note (st w); sessions := sessions (st w); theme := theme (st w) |};
        disk := disk w; alive := true |})
  /\ (isRunning (st w) = false -> runActions w (repeat Tick n) = w).
Proof.
  intros Hw Ha. destruct (reachable_facts w Hw) as (_ & _ & Hr). split.
  - intros Hrun. apply ticks_world; auto.
  - intros Hstop. induction n as [|n IH]; [reflexivity |].
    cbn [repeat runActions fold_left]. fold (runActions (dispatch w Tick) (repeat Tick n)).
    assert (E : dispatch w Tick = w).
    { unfold dispatch. rewrite Ha. cbn [handler]. rewrite Hstop.
      unfold commit, begin, samePrimitives. cbn.
      rewrite Z.eqb_refl, eqb_reflx, !String.eqb_refl. cbn.
      destruct w as [s d al]. cbn in *. now subst. }
    now rewrite E.
Qed.

End Timer.

Lemma ticks_count_witness :
  (@reachable Sample.json runningWorld /\ alive runningWorld = true)
  /\ seconds (st (@runActions Sample.json runningWorld (repeat Tick 59))) = 60.
Proof.
  assert (Hr : @reachable Sample.json runningWorld).
  { apply (@runActions_reachable Sample.json), (@reach_mount Sample.json). }
  split; [split; [exact Hr | reflexivity] |].
  destruct (@ticks_count Sample.json runningWorld 59 Hr eq_refl) as [E _].
  rewrite (E eq_refl). reflexivity.
Defined.

(** ** Saving, toggling and the store *)

Lemma noteKey_record (s : Session.t) : noteKey (Session.toJs s) = Ok (keyOf s).
Proof. reflexivity. Qed.

Section SaveToggle.
Context `{Json}.

Lemma commit_alive (old : State) (m : Mem) :
  failed m = false -> renders (next m) = true -> alive (commit old m) = true.
Proof.
  intros Hf Hr. unfold commit. rewrite Hf, Hr. cbn [orb negb].
  destruct (negb (fresh m || false) && samePrimitives old (next m)); reflexivity.
Qed.

Lemma renders_array (s : State) :
  renders s = true -> exists l ks, sessions s = JArr l /\ reduceKeys l = Ok ks.
Proof.
  unfold renders, render. destruct (sessions s) as [| | | |l|]; try discriminate.
  destruct (reduceKeys l) as [ks|] eqn:E; [eauto | discriminate].
Qed.

(** X5: in a run, a save with elapsed seconds clears the note field,
    leaves the theme alone, keeps the component mounted and makes exactly
    one call to the store: the write of the new list under the sessions
    key. *)
Theorem save_clears_and_persists (w : World) (now : Z) (iso : string) :
  reachable w -> alive w = true -> seconds (st w) <> 0 ->
  note (st (dispatch w (Save now iso))) = ""
  /\ theme (st (dispatch w (Save now iso))) = theme (st w)
  /\ alive (dispatch w (Save now iso)) = true
  /\ disk (dispatch w (Save now iso))
     = written sessionsKey (JSON_stringify (sessions (st (dispatch w (Save now iso)))))
         (disk w).
Proof.
  intros Hw Ha Hs. destruct (reachable_facts w Hw) as (_ & _ & Hr).
  destruct (renders_array (st w) (Hr Ha)) as (l & ks & El & Ek).
  unfold dispatch. rewrite Ha. cbn [handler].
  rewrite (save_state _ _ _ _ l) by assumption.
  unfold commit. cbn [fresh failed next theme sessions orb negb andb].
  assert (R : forall s', sessions s' = JArr (Session.toJs
                {| Session.id := now;
                   Session.note := match trim (note (st w)) with
                                   | EmptyString => "Untitled session"
                                   | String c r => String c r
                                   end;
                   Session.durationSeconds := seconds (st w);
                   Session.createdAt := iso |} :: l) -> renders s' = true).
  { intros s' E. unfold renders, render. rewrite E. cbn [reduceKeys].
    rewrite noteKey_record, Ek. reflexivity. }
  match goal with |- context [renders ?s'] => rewrite (R s' eq_refl) end.
  cbn [negb]. rewrite String.eqb_refl.
  unfold mbind, M_bind. cbn [mret M_ret]. rewrite persistSessions_run.
  cbn [st alive disk note theme sessions snd store onStore]. repeat split.
Qed.

Lemma toggle_world (w : World) :
  alive w = true -> renders (st w) = true ->
  dispatch w ToggleTheme
  = {| st := withTheme (toggled (theme (st w))) (st w);
       disk := written themeKey (toggled (theme (st w))) (disk w);
       alive := true |}.
Proof.
  intros Ha Hr. unfold dispatch. rewrite Ha. cbn [handler].
  unfold toggleTheme, setTheme, begin, onState. cbn [snd next].
  fold (toggled (theme (st w))). fold (withTheme (toggled (theme (st w))) (st w)).
  unfold commit, samePrimitives.
  cbn [fresh failed next store orb negb].
  assert (Hne : String.eqb (theme (st w)) (theme (withTheme (toggled (theme (st w))) (st w)))
                = false).
  { cbn [theme withTheme]. unfold toggled.
    destruct (String.eqb_spec (theme (st w)) "dark") as [->|Hd]; [reflexivity |].
    apply String.eqb_neq. exact Hd. }
  rewrite Hne, andb_false_r.
  rewrite (renders_same_sessions _ (st w)) by reflexivity. rewrite Hr. cbn [negb].
  unfold mbind, M_bind. rewrite persistTheme_run. cbn [mret M_ret snd store onStore theme withTheme].
  reflexivity.
Qed.

(** X6: in a run, toggling the theme twice gives back the state as it
    was; the store is called twice, and the second call writes the
    original theme. *)
Theorem toggle_twice (w : World) :
  reachable w -> alive w = true ->
  st (dispatch (dispatch w ToggleTheme) ToggleTheme) = st w
  /\ alive (dispatch (dispatch w ToggleTheme) ToggleTheme) = true
  /\ disk (dispatch (dispatch w ToggleTheme) ToggleTheme)
     = written themeKey (theme (st w)) (written themeKey (toggled (theme (st w))) (disk w)).
Proof.
  intros Hw Ha. destruct (reachable_facts w Hw) as (Hth & _ & Hr).
  rewrite (toggle_world w Ha (Hr Ha)).
  rewrite toggle_world;
    [| reflexivity
     | cbn [st]; rewrite (renders_same_sessions _ (st w)) by reflexivity; now apply Hr].
  cbn [st disk alive theme withTheme].
  assert (Hback : toggled (toggled (theme (st w))) = theme (st w)).
  { destruct Hth as [-> | ->]; reflexivity. }
  rewrite Hback. split; [| split; reflexivity].
  unfold withTheme. cbn. destruct (st w). reflexivity.
Qed.

(** X7: after mounting the theme is ["light"] exactly when the store could
    be read and held ["light"] under the theme key; in every other case
    (nothing stored, another text stored, a read that raises) it is
    ["dark"]. *)
Theorem mount_theme (d : Storage) :
  (theme (st (mount d)) = "light"
   <-> getThrows d = false /\ items d !! "quicknote_theme" = Some "light")
  /\ (theme (st (mount d)) = "dark" \/ theme (st (mount d)) = "light").
Proof.
  assert (E : theme (st (mount d)) = loadedTheme d).
  { rewrite mount_world. destruct (loadedSessions d); [destruct (renders _) |]; reflexivity. }
  rewrite E. split; [| apply loadedTheme_name].
  unfold loadedTheme, isThemeName. change themeKey with "quicknote_theme".
  destruct (getThrows d); [split; [discriminate | intros [? _]; discriminate] |].
  destruct (items d !! "quicknote_theme") as [t|];
    [| split; [discriminate | intros [_ ?]; discriminate]].
  destruct (String.eqb_spec t "light") as [->|Hl]; cbn [orb].
  - split; auto.
  - destruct (String.eqb_spec t "dark") as [->|Hd].
    + split; [discriminate | intros [_ ?]; congruence].
    + split; [discriminate | intros [_ ?]; congruence].
Qed.

Lemma handler_indep (a : action) (s : State) (d d' : Storage) :
  next (snd (handler a s (begin s d))) = next (snd (handler a s (begin s d')))
  /\ fresh (snd (handler a s (begin s d))) = fresh (snd (handler a s (begin s d')))
  /\ failed (snd (handler a s (begin s d))) = failed (snd (handler a s (begin s d'))).
Proof.
  destruct a; cbn [handler].
  1-3, 5, 9: (cbn; auto).
  - destruct (isRunning s); cbn; auto.
  - unfold handleSaveSession. destruct (seconds s =? 0); [cbn; auto |].
    unfold mbind, M_bind, setSessions, begin. cbn [next sessions].
    destruct (prepend _ (sessions s)); cbn; auto.
  - unfold handleDeleteSession, setSessions, begin. cbn [next sessions].
    destruct (withoutId id (sessions s)); cbn; auto.
  - rewrite !clearAll_state. cbn. auto.
Qed.

Lemma commit_indep (old : State) (m m' : Mem) :
  next m = next m' -> fresh m = fresh m' -> failed m = failed m' ->
  st (commit old m) = st (commit old m') /\ alive (commit old m) = alive (commit old m').
Proof.
  intros En Ef Efl. unfold commit. rewrite En, Ef, Efl.
  destruct (negb (fresh m' || failed m') && samePrimitives old (next m')); [auto |].
  destruct (failed m' || negb (renders (next m'))); auto.
Qed.

Lemma dispatch_indep (w1 w2 : World) (a : action) :
  st w1 = st w2 -> alive w1 = alive w2 ->
  st (dispatch w1 a) = st (dispatch w2 a) /\ alive (dispatch w1 a) = alive (dispatch w2 a).
Proof.
  intros Es Ea. unfold dispatch. rewrite Ea.
  destruct (alive w2) eqn:A; [| simpl; split; congruence].
  rewrite Es.
  destruct (handler_indep a (st w2) (disk w1) (disk w2)) as (En & Ef & Efl).
  now apply commit_indep.
Qed.

Lemma runActions_indep (acts : list action) : forall w1 w2,
  st w1 = st w2 -> alive w1 = alive w2 ->
  st (runActions w1 acts) = st (runActions w2 acts)
  /\ alive (runActions w1 acts) = alive (runActions w2 acts).
Proof.
  induction acts as [|a acts IH]; intros w1 w2 Es Ea; [auto |].
  simpl. destruct (dispatch_indep w1 w2 a Es Ea). now apply IH.
Qed.

(** X8: once mounted, the component's state never depends on the store:
    whatever the store holds and whichever of its calls raise, the same
    actions lead to the same state, mounted or not. *)
Theorem state_ignores_store (w : World) (d : Storage) (acts : list action) :
  st (runActions (onDisk d w) acts) = st (runActions w acts)
  /\ alive (runActions (onDisk d w) acts) = alive (runActions w acts).
Proof. apply runActions_indep; reflexivity. Qed.

End SaveToggle.

Lemma runningWorld_reachable : @reachable Sample.json runningWorld.
Proof. apply (@runActions_reachable Sample.json), (@reach_mount Sample.json). Qed.

Lemma save_clears_and_persists_witness :
  (@reachable Sample.json runningWorld /\ alive runningWorld = true
   /\ seconds (st runningWorld) <> 0)
  /\ note (st runningWorld) = "reading"
  /\ note (st (@dispatch Sample.json runningWorld (Save instant stamp))) = "".
Proof.
  assert (Hs : seconds (st runningWorld) <> 0) by (vm_compute; discriminate).
  split; [split; [exact runningWorld_reachable | split; [reflexivity | exact Hs]] |].
  split; [reflexivity |].
  apply (@save_clears_and_persists Sample.json runningWorld instant stamp
           runningWorld_reachable eq_refl Hs).
Defined.

Lemma toggle_twice_witness :
  (@reachable Sample.json runningWorld /\ alive runningWorld = true)
  /\ st (@dispatch Sample.json (@dispatch Sample.json runningWorld ToggleTheme) ToggleTheme)
     = st runningWorld.
Proof.
  split; [split; [exact runningWorld_reachable | reflexivity] |].
  apply (@toggle_twice Sample.json runningWorld runningWorld_reachable eq_refl).
Defined.

(** ** Reloading *)

Section Reloading.
Context `{Json}.

Lemma getThrows_firstPass d : getThrows (firstPass d) = getThrows d.
Proof.
  unfold firstPass.
  destruct (written_flags sessionsKey (JSON_stringify (JArr []))
              (written themeKey "dark" (afterLoad d))) as (-> & _).
  destruct (written_flags themeKey "dark" (afterLoad d)) as (-> & _).
  unfold afterLoad. destruct (getThrows d) eqn:G; cbn; now rewrite G.
Qed.

Lemma loadedTheme_stored d t :
  getThrows d = false -> items d !! themeKey = Some t -> isTheme t -> loadedTheme d = t.
Proof.
  intros G E Ht. unfold loadedTheme, isThemeName. rewrite G, E.
  destruct Ht as [-> | ->]; reflexivity.
Qed.

(** X9: in a run on a store that takes reads and writes, what the store
    holds at any moment gives back the current list and the current theme
    when the component is mounted again, provided [JSON.parse] reads the
    encoding of the list back. *)
Theorem reload_round_trip (d : Storage) (acts : list action) (w : World) :
  w = runActions (mount d) acts -> log d = [] ->
  alive w = true -> setThrows (disk w) = false -> getThrows (disk w) = false ->
  JSON_stringify (sessions (st w)) <> "" ->
  JSON_parse (JSON_stringify (sessions (st w))) = Some (sessions (st w)) ->
  sessions (st (mount (disk w))) = sessions (st w)
  /\ theme (st (mount (disk w))) = theme (st w)
  /\ alive (mount (disk w)) = true.
Proof.
  intros Ew Hlog Ha S G Hne Hp.
  assert (Hinv : inv w).
  { subst w. apply runActions_inv, mount_inv. rewrite Hlog. constructor. }
  assert (Hreach : reachable w).
  { subst w. apply runActions_reachable. constructor. }
  destruct Hinv as (Hth & _ & Hmir). destruct (Hmir Ha S) as (Et & Es).
  destruct (reachable_facts w Hreach) as (_ & _ & Hr).
  assert (L : loadedSessions (disk w) = Some (sessions (st w))).
  { apply (something_loaded (disk w) (JSON_stringify (sessions (st w)))); assumption. }
  assert (T : loadedTheme (disk w) = theme (st w)).
  { apply loadedTheme_stored; assumption. }
  assert (Em : sessions (mountedState (disk w)) = sessions (st w)).
  { unfold mountedState. cbn [sessions]. now rewrite L. }
  rewrite mount_world, L.
  rewrite (renders_same_sessions _ (st w) Em), (Hr Ha). cbn [st alive].
  split; [exact Em |]. split; [| reflexivity].
  unfold mountedState. cbn [theme]. exact T.
Qed.

(** X10: when mounting ends with the component gone (the loaded value did
    not render), the store, if it takes writes, already holds ["[]"] under
    the sessions key: the stored list is lost and the next mount starts
    from the empty list and stays up. *)
Theorem crash_heals_on_reload (d : Storage) :
  alive (mount d) = false -> setThrows d = false ->
  JSON_stringify (JArr []) = "[]" -> JSON_parse "[]" = Some (JArr []) ->
  items (disk (mount d)) !! "quicknote_sessions" = Some "[]"
  /\ sessions (st (mount (disk (mount d)))) = JArr []
  /\ alive (mount (disk (mount d))) = true.
Proof.
  intros Hdead S Hs Hp. rewrite mount_world in *.
  destruct (loadedSessions d) as [v|] eqn:L; [| discriminate].
  destruct (renders (mountedState d)); [discriminate |]. cbn [disk] in *.
  assert (G : getThrows d = false).
  { unfold loadedSessions in L. destruct (getThrows d); [discriminate | reflexivity]. }
  destruct (firstPass_items d S) as (_ & Es). rewrite Hs in Es.
  split; [exact Es |].
  assert (L' : loadedSessions (firstPass d) = Some (JArr [])).
  { apply (something_loaded (firstPass d) "[]");
      [now rewrite getThrows_firstPass | exact Es | discriminate | exact Hp]. }
  rewrite mount_world, L'.
  assert (R : renders (mountedState (firstPass d)) = true).
  { unfold renders, render, mountedState. cbn [sessions]. now rewrite L'. }
  rewrite R. cbn [st alive]. unfold mountedState. cbn [sessions]. now rewrite L'.
Qed.

End Reloading.

Lemma reload_round_trip_witness :
  (log oddStore = []
   /\ alive (@runActions Sample.json (@mount Sample.json oddStore) [ToggleTheme]) = true)
  /\ sessions (st (@mount Sample.json
                     (disk (@runActions Sample.json (@mount Sample.json oddStore)
                              [ToggleTheme]))))
     = Sample.oddValue
  /\ theme (st (@mount Sample.json
                  (disk (@runActions Sample.json (@mount Sample.json oddStore)
                           [ToggleTheme]))))
     = "light".
Proof.
  split; [split; vm_compute; reflexivity |].
  destruct (@reload_round_trip Sample.json oddStore [ToggleTheme] _ eq_refl eq_refl)
    as (E1 & E2 & _); try (vm_compute; reflexivity).
  { vm_compute. discriminate. }
  rewrite E1, E2. split; vm_compute; reflexivity.
Defined.

Lemma crash_heals_on_reload_witness :
  (alive (@mount Sample.json (storing sessionsKey "{}")) = false
   /\ setThrows (storing sessionsKey "{}") = false)
  /\ alive (@mount Sample.json (disk (@mount Sample.json (storing sessionsKey "{}")))) = true.
Proof.
  split; [split; vm_compute; reflexivity |].
  apply (@crash_heals_on_reload Sample.json (storing sessionsKey "{}"));
    vm_compute; reflexivity.
Defined.

(** ** Lists of session records *)

Section Records.
Context `{Json}.

Lemma save_state_records (s : State) (d : Storage) now iso l :
  seconds s <> 0 -> sessions s = Session.listToJs l ->
  snd (handleSaveSession now iso s (begin s d))
  = {| next := {| seconds := 0; isRunning := false; note := "";
                  sessions := Session.listToJs (savedSession now iso s :: l);
                  theme := theme s |};
       fresh := true; failed := false; store := d |}.
Proof.
  intros Hs Hl. now rewrite (save_state s d now iso (map Session.toJs l) Hs Hl).
Qed.

Lemma save_world_records (w : World) now iso l :
  alive w = true -> seconds (st w) <> 0 -> sessions (st w) = Session.listToJs l ->
  sessions (st (dispatch w (Save now iso)))
  = Session.listToJs (savedSession now iso (st w) :: l)
  /\ seconds (st (dispatch w (Save now iso))) = 0
  /\ alive (dispatch w (Save now iso)) = true.
Proof.
  intros Ha Hs Hl. unfold dispatch. rewrite Ha. cbn [handler].
  rewrite (save_state_records _ _ _ _ l) by assumption.
  split; [now rewrite commit_fresh_st |].
  split.
  - unfold commit. cbn [fresh failed next orb negb andb].
    destruct (renders _); reflexivity.
  - apply commit_alive; [reflexivity |].
    now apply (renders_records _ (savedSession now iso (st w) :: l)).
Qed.

Lemma delete_world_records (w : World) i l :
  alive w = true -> sessions (st w) = Session.listToJs l ->
  dispatch w (Delete i)
  = {| st := {| seconds := seconds (st w); isRunning := isRunning (st w);
                note := note (st w); sessions := Session.listToJs (keepOthers i l);
                theme := theme (st w) |};
       disk := written sessionsKey (JSON_stringify (Session.listToJs (keepOthers i l)))
                 (disk w);
       alive := true |}.
Proof.
  intros Ha Hl. unfold dispatch. rewrite Ha. cbn [handler].
  rewrite (delete_state _ _ _ l) by assumption.
  unfold commit. cbn [fresh failed next theme sessions orb negb andb].
  rewrite (renders_records _ (keepOthers i l)) by reflexivity. cbn [negb].
  rewrite String.eqb_refl. unfold mbind, M_bind. cbn [mret M_ret].
  now rewrite persistSessions_run.
Qed.

(** X11: on a list of session records, a save under an id that the list
    does not hold yet, followed by a delete of that id, gives back the
    list as it was. *)
Theorem save_then_delete (w : World) (now : Z) (iso : string) (l : list Session.t) :
  alive w = true -> seconds (st w) <> 0 -> sessions (st w) = Session.listToJs l ->
  ~ In now (map Session.id l) ->
  sessions (st (dispatch (dispatch w (Save now iso)) (Delete now))) = Session.listToJs l
  /\ alive (dispatch (dispatch w (Save now iso)) (Delete now)) = true.
Proof.
  intros Ha Hs Hl Hnew.
  destruct (save_world_records w now iso l Ha Hs Hl) as (E & _ & Ha').
  rewrite (delete_world_records _ now _ Ha' E). cbn [st alive sessions].
  split; [| reflexivity]. f_equal.
  unfold keepOthers. cbn [List.filter savedSession Session.id].
  rewrite Z.eqb_refl. cbn [negb]. now apply keepOthers_absent.
Qed.

(** X12: a delete on a list of session records always makes exactly one
    call to the store, the write of the resulting list, also when no
    entry had the id. *)
Theorem delete_always_writes (w : World) (i : Z) (l : list Session.t) :
  alive w = true -> sessions (st w) = Session.listToJs l ->
  log (disk (dispatch w (Delete i)))
  = (log (disk w)
     ++ [SetItem "quicknote_sessions"
           (JSON_stringify (sessions (st (dispatch w (Delete i)))))])%list
  /\ (~ In i (map Session.id l) -> sessions (st (dispatch w (Delete i))) = sessions (st w)).
Proof.
  intros Ha Hl. rewrite (delete_world_records w i l Ha Hl). cbn [st disk sessions].
  split; [apply written_log |].
  intros Hn. now rewrite keepOthers_absent, Hl.
Qed.

Lemma commit_quiet (old : State) (m : Mem) :
  fresh m = false -> theme (next m) = theme old -> disk (commit old m) = store m.
Proof.
  intros Hf Ht. unfold commit. rewrite Hf, Ht, String.eqb_refl.
  destruct (negb (false || failed m) && samePrimitives old (next m)); [reflexivity |].
  destruct (failed m || negb (renders (next m))); reflexivity.
Qed.

(** X13: the actions of the timer and of the note field (start, pause,
    reset, tick, typing) never call the store. *)
Theorem quiet_actions_skip_store (w : World) (a : action) :
  quiet a = true -> disk (dispatch w a) = disk w.
Proof.
  intros Hq. unfold dispatch. destruct (alive w); [| reflexivity].
  destruct a; try discriminate Hq; cbn [handler];
    try (rewrite commit_quiet; reflexivity).
  destruct (isRunning (st w)); rewrite commit_quiet; reflexivity.
Qed.

Lemma cleaned_wellFormed (n : string) :
  let c := match trim n with
           | EmptyString => "Untitled session"
           | String c r => String c r
           end in
  c <> EmptyString /\ startsClean c = true /\ endsClean c = true.
Proof.
  cbv zeta. destruct (trim_split n) as (_ & _ & _ & _ & _ & Hs & He).
  destruct (trim n) as [|c r]; [repeat split; discriminate |].
  split; [discriminate | split; assumption].
Qed.

Lemma handler_records (a : action) (s : State) (d : Storage) (l : list Session.t) :
  sessions s = Session.listToJs l -> 0 <= seconds s -> Forall wellFormed l ->
  failed (snd (handler a s (begin s d))) = false
  /\ exists l', sessions (next (snd (handler a s (begin s d)))) = Session.listToJs l'
                /\ Forall wellFormed l'.
Proof.
  intros Hl Hs Hwf. destruct a; cbn [handler].
  1-3, 5, 9: (cbn; split; [reflexivity | exists l; auto]).
  - destruct (isRunning s); cbn; (split; [reflexivity | exists l; auto]).
  - destruct (Z.eq_dec (seconds s) 0) as [E|E].
    + unfold handleSaveSession. rewrite E. cbn. split; [reflexivity | exists l; auto].
    + rewrite (save_state_records _ _ _ _ l) by assumption. cbn [failed next sessions].
      split; [reflexivity |]. eexists. split; [reflexivity |].
      constructor; [| assumption].
      unfold wellFormed, savedSession. cbn [Session.durationSeconds Session.note].
      split; [lia | apply cleaned_wellFormed].
  - rewrite (delete_state _ _ _ l) by assumption. cbn [failed next sessions].
    split; [reflexivity |]. eexists. split; [reflexivity |].
    unfold keepOthers. apply Forall_forall. intros x Hx.
    apply list_elem_of_In, List.filter_In in Hx as [Hx _].
    apply Forall_forall with (x := x) in Hwf; [assumption | now apply list_elem_of_In].
  - rewrite clearAll_state. cbn [failed next sessions].
    split; [reflexivity |]. exists []. split; [reflexivity | constructor].
Qed.

Lemma dispatch_sound (w : World) (a : action) : sound w -> sound (dispatch w a).
Proof.
  intros (Ha & Hs & l & Hl & Hwf).
  destruct (handler_records a (st w) (disk w) l Hl Hs Hwf) as (Hf & l' & Hl' & Hwf').
  destruct (dispatch_st w a Ha) as (Es & _ & _ & _ & Ess).
  destruct (handler_timer a (st w) (disk w)) as (Es' & _).
  split; [| split].
  - unfold dispatch. rewrite Ha. apply commit_alive; [exact Hf |].
    now apply (renders_records _ l').
  - rewrite Es, Es'. destruct a; cbn [secondsAfter]; try lia.
    destruct (isRunning (st w)); lia.
  - exists l'. split; [now rewrite Ess | assumption].
Qed.

Lemma runActions_sound (acts : list action) : forall w, sound w -> sound (runActions w acts).
Proof.
  induction acts as [|a acts IH]; intros w Hw; [exact Hw |].
  simpl. apply IH. now apply dispatch_sound.
Qed.

(** X14: when nothing is taken from the store at mounting (no entry, an
    empty text, a text that [JSON.parse] rejects, or a read that raises),
    no sequence of actions unmounts the component, whatever the store
    does, and every session in the list has at least one second and a
    non-empty label without white space at its ends. *)
Theorem sessions_stay_well_formed (d : Storage) (acts : list action) :
  getThrows d = true
  \/ items d !! sessionsKey = None
  \/ items d !! sessionsKey = Some ""
  \/ (exists s, items d !! sessionsKey = Some s /\ JSON_parse s = None) ->
  alive (runActions (mount d) acts) = true
  /\ exists l,
      sessions (st (runActions (mount d) acts)) = Session.listToJs l
      /\ Forall wellFormed l.
Proof.
  intros Hd. apply nothing_loaded in Hd.
  destruct (mount_recovers d Hd) as (Es & Ha).
  destruct (runActions_sound acts (mount d)) as (Ha' & _ & l & Hl & Hwf).
  { split; [exact Ha |]. split.
    - rewrite mount_world, Hd. reflexivity.
    - exists []. split; [exact Es | constructor]. }
  split; [exact Ha' |]. exists l. auto.
Qed.

End Records.

Lemma save_then_delete_witness :
  (alive runningWorld = true /\ seconds (st runningWorld) <> 0
   /\ sessions (st runningWorld) = Session.listToJs []
   /\ ~ In instant (map Session.id []))
  /\ sessions (st (@dispatch Sample.json
                     (@dispatch Sample.json runningWorld (Save instant stamp))
                     (Delete instant)))
     = Session.listToJs [].
Proof.
  assert (Hs : seconds (st runningWorld) <> 0) by (vm_compute; discriminate).
  assert (Hn : ~ In instant (map Session.id [])) by (intros []).
  split; [split; [reflexivity | split; [exact Hs | split; [reflexivity | exact Hn]]] |].
  apply (@save_then_delete Sample.json runningWorld instant stamp [] eq_refl Hs eq_refl Hn).
Defined.

Lemma delete_always_writes_witness :
  (alive listedWorld = true /\ sessions (st listedWorld) = Session.listToJs listed)
  /\ (~ In 5 (map Session.id listed) ->
      sessions (st (@dispatch Sample.json listedWorld (Delete 5))) = sessions (st listedWorld)).
Proof.
  assert (Hl : sessions (st listedWorld) = Session.listToJs listed) by (vm_compute; reflexivity).
  split; [split; [reflexivity | exact Hl] |].
  apply (@delete_always_writes Sample.json listedWorld 5 listed eq_refl Hl).
Defined.

Lemma quiet_actions_skip_store_witness :
  quiet (TypeNote "x") = true
  /\ disk (@dispatch Sample.json listedWorld (TypeNote "x")) = disk listedWorld.
Proof.
  split; [reflexivity |].
  apply (@quiet_actions_skip_store Sample.json listedWorld (TypeNote "x")). reflexivity.
Defined.

Lemma sessions_stay_well_formed_witness :
  items fullStorage !! sessionsKey = None
  /\ alive (@runActions Sample.json (@mount Sample.json fullStorage)
              (sameClockRun ++ [Delete instant; ClearAll; ToggleTheme])) = true.
Proof.
  split; [reflexivity |].
  apply (@sessions_stay_well_formed Sample.json fullStorage
           (sameClockRun ++ [Delete instant; ClearAll; ToggleTheme])).
  right; left. reflexivity.
Defined.

(** ** Groups: members, order of the list, totals *)

Section Groups.
Implicit Types (acc : gmap string TaskEntry) (s : Session.t) (l : list Session.t).

(** X15: every group has at least one session, so that the average never
    divides by zero; its key is not the name of an inherited property and
    is the lower-cased note of a session of the list, whose note is the
    displayed name of the group; every session whose key is not such a
    name has its group. *)
Theorem groups_have_members l :
  (forall k e,
      taskStatsMap l !! k = Some e ->
      1 <= count e
      /\ inheritedKey k = false
      /\ (exists s, In s l /\ keyOf s = k /\ name e = Session.note s))
  /\ (forall s, In s l -> inheritedKey (keyOf s) = false ->
                is_Some (taskStatsMap l !! keyOf s)).
Proof.
  split.
  - intros k e He.
    destruct (inheritedKey k) eqn:Hin;
      [rewrite taskStatsMap_inherited in He by assumption; discriminate |].
    rewrite taskStatsMap_group in He by assumption. unfold groupOf in He.
    destruct (members k l) as [|first rest] eqn:Hm; [discriminate |].
    injection He as <-. cbn [count totalSeconds].
    assert (Hc : 1 <= Z.of_nat (length (first :: rest))) by (simpl; lia).
    split; [exact Hc |]. split; [reflexivity |].
    exists first. assert (Hf : In first (members k l)) by (rewrite Hm; now left).
    apply List.filter_In in Hf as [Hf Hk].
    split; [exact Hf |]. split; [now apply String.eqb_eq | reflexivity].
  - intros s Hs Hin. rewrite taskStatsMap_group by assumption. unfold groupOf.
    destruct (members (keyOf s) l) as [|first rest] eqn:Hm; [| eauto].
    assert (Hf : In s (members (keyOf s) l)).
    { apply List.filter_In. split; [exact Hs | apply String.eqb_refl]. }
    rewrite Hm in Hf. destruct Hf.
Qed.

Lemma members_perm k l l' :
  Permutation l l' ->
  sumSeconds (members k l) = sumSeconds (members k l')
  /\ length (members k l) = length (members k l').
Proof.
  induction 1 as [|x l l' _ [IH1 IH2]|x y l|l l' l'' _ [IH1 IH2] _ [IH3 IH4]].
  - auto.
  - unfold members in *. cbn [List.filter].
    destruct (String.eqb (keyOf x) k); cbn [sumSeconds fold_right length];
      [fold (sumSeconds (List.filter (fun s => String.eqb (keyOf s) k) l));
       fold (sumSeconds (List.filter (fun s => String.eqb (keyOf s) k) l')) |];
      split; congruence.
  - unfold members. cbn [List.filter].
    destruct (String.eqb (keyOf x) k), (String.eqb (keyOf y) k);
      cbn [sumSeconds fold_right length]; split; lia.
  - split; congruence.
Qed.

(** X16: on a list whose durations are non-negative and add up to a safe
    integer, the totals and the counts of the groups do not depend on the
    order of the sessions (only the displayed name does). *)
Theorem stats_ignore_order l l' (k : string) :
  safeDurations l -> Permutation l l' ->
  totalSeconds <$> taskStatsMap l !! k = totalSeconds <$> taskStatsMap l' !! k
  /\ count <$> taskStatsMap l !! k = count <$> taskStatsMap l' !! k.
Proof.
  intros _ Hp. destruct (inheritedKey k) eqn:Hin.
  - now rewrite !taskStatsMap_inherited by assumption.
  - rewrite !taskStatsMap_group by assumption. unfold groupOf.
    destruct (members_perm k l l' Hp) as [Es El].
    destruct (members k l) as [|a r], (members k l') as [|a' r'];
      try discriminate El; [auto |].
    cbn -[sumSeconds length]. rewrite Es, El. auto.
Qed.

Section Sums.
Variable g : TaskEntry -> Z.
Variable delta : Session.t -> Z.
Hypothesis g_bump : forall e s, g (bump e s) = g e + delta s.
Hypothesis g_opened : forall s, g (opened s) = 0.

Lemma total_insert_new m k e : m !! k = None -> sumOver g (<[k := e]> m) = g e + sumOver g m.
Proof.
  intros Hk. unfold sumOver. apply (map_fold_insert_L (fun _ e a => g e + a)); [| exact Hk].
  intros. lia.
Qed.

Lemma total_insert_over m k e e' :
  m !! k = Some e -> sumOver g (<[k := e']> m) = g e' + (sumOver g m - g e).
Proof.
  intros Hk. rewrite <- insert_delete_eq.
  rewrite total_insert_new by apply lookup_delete_eq.
  unfold sumOver at 2. rewrite (map_fold_delete_L (fun _ e a => g e + a) 0 k e m); [| | exact Hk].
  - fold (sumOver g (delete k m)). lia.
  - intros. lia.
Qed.

Lemma total_step acc s :
  (inheritedKey (keyOf s) = true -> acc !! keyOf s = None) ->
  sumOver g (taskStatsStep acc s)
  = sumOver g acc + (if inheritedKey (keyOf s) then 0 else delta s).
Proof.
  intros Hinv. destruct (inheritedKey (keyOf s)) eqn:Hin.
  - rewrite step_inherited by auto. lia.
  - unfold taskStatsStep, accGet. fold (keyOf s). rewrite Hin.
    destruct (acc !! keyOf s) as [e|] eqn:E.
    + rewrite E. fold (bump e s). rewrite (total_insert_over _ _ e) by assumption.
      rewrite g_bump. lia.
    + rewrite lookup_insert_eq. fold (opened s). fold (bump (opened s) s).
      rewrite insert_insert_eq, total_insert_new by assumption.
      rewrite g_bump, g_opened. lia.
Qed.

Lemma total_fold l : forall acc,
  (forall k, inheritedKey k = true -> acc !! k = None) ->
  sumOver g (fold_left taskStatsStep l acc)
  = sumOver g acc + fold_right (fun s a => delta s + a) 0 (grouped l).
Proof.
  induction l as [|s l IH]; intros acc Hinv; [simpl; lia |].
  cbn [fold_left]. rewrite IH.
  - rewrite total_step by auto. unfold grouped. cbn [List.filter].
    destruct (inheritedKey (keyOf s)); cbn [negb fold_right]; lia.
  - intros k Hk. destruct (String.eqb_spec (keyOf s) k) as [<-|Hne].
    + rewrite step_inherited; auto.
    + rewrite step_other; auto.
Qed.

End Sums.

(** X17: on a list whose durations are non-negative and add up to a safe
    integer, nothing is lost or counted twice in the groups: their totals
    add up to the seconds, and their counts to the number, of the sessions
    whose key is not the name of an inherited property. *)
Theorem groups_conserve_seconds l :
  safeDurations l ->
  groupSeconds (taskStatsMap l) = sumSeconds (grouped l)
  /\ groupCounts (taskStatsMap l) = Z.of_nat (length (grouped l)).
Proof.
  intros _. split.
  - change (groupSeconds (taskStatsMap l)) with (sumOver totalSeconds (taskStatsMap l)).
    unfold taskStatsMap.
    rewrite (total_fold totalSeconds Session.durationSeconds);
      [| reflexivity | reflexivity | intros; apply lookup_empty].
    unfold sumOver. rewrite map_fold_empty. reflexivity.
  - change (groupCounts (taskStatsMap l)) with (sumOver count (taskStatsMap l)).
    unfold taskStatsMap.
    rewrite (total_fold count (fun _ => 1));
      [| reflexivity | reflexivity | intros; apply lookup_empty].
    unfold sumOver. rewrite map_fold_empty. induction (grouped l) as [|s r IH]; [reflexivity |].
    cbn [fold_right length]. rewrite Z.add_0_l in *. lia.
Qed.

End Groups.

Lemma stats_ignore_order_witness :
  (safeDurations readExample /\ Permutation readExample (rev readExample))
  /\ totalSeconds <$> taskStatsMap (rev readExample) !! "read" = Some 180
  /\ count <$> taskStatsMap (rev readExample) !! "read" = Some 2.
Proof.
  assert (Hs : safeDurations readExample).
  { split; [repeat constructor; simpl; lia | vm_compute; discriminate]. }
  assert (Hp : Permutation readExample (rev readExample)) by apply Permutation_rev.
  split; [split; assumption |].
  destruct (stats_ignore_order readExample (rev readExample) "read" Hs Hp) as [E1 E2].
  rewrite <- E1, <- E2. split; vm_compute; reflexivity.
Defined.

Lemma groups_conserve_seconds_witness :
  safeDurations (twoDays ++ constructorExample)%list
  /\ groupSeconds (taskStatsMap (twoDays ++ constructorExample)%list) = 780
  /\ groupCounts (taskStatsMap (twoDays ++ constructorExample)%list) = 3.
Proof.
  assert (Hs : safeDurations (twoDays ++ constructorExample)%list).
  { split; [repeat constructor; simpl; lia | vm_compute; discriminate]. }
  split; [exact Hs |].
  destruct (groups_conserve_seconds (twoDays ++ constructorExample)%list Hs) as [E1 E2].
  rewrite E1, E2. split; vm_compute; reflexivity.
Defined.

(** ** Today's figures *)

Section TodayFacts.
Variable toDateString : string -> string.
Variable todayStr : string.

Lemma size_keys_le (ks : list string) : (size (list_to_set ks : gset string) <= length ks)%nat.
Proof.
  induction ks as [|k ks IH]; [rewrite list_to_set_nil, size_empty; lia |].
  rewrite list_to_set_cons, size_union_alt, size_singleton. cbn [length].
  assert (Hsub : (size (list_to_set ks ∖ {[k]} : gset string)
                  <= size (list_to_set ks : gset string))%nat).
  { apply subseteq_size. apply subseteq_difference_l. reflexivity. }
  lia.
Qed.

Lemma sum_from (l : list Session.t) : forall a,
  fold_left (fun sum s => sum + Session.durationSeconds s) l a = a + sumSeconds l.
Proof.
  induction l as [|s l IH]; intros a; [simpl; lia |].
  cbn [fold_left sumSeconds fold_right]. rewrite IH.
  fold (sumSeconds l). lia.
Qed.

Lemma dom_groups (l : list Session.t) :
  dom (taskStatsMap l) ⊆ (list_to_set (map keyOf l) : gset string).
Proof.
  intros k Hk. apply elem_of_dom in Hk as [e He].
  destruct (inheritedKey k) eqn:Hin;
    [rewrite taskStatsMap_inherited in He by assumption; discriminate |].
  rewrite taskStatsMap_group in He by assumption. unfold groupOf in He.
  destruct (members k l) as [|first rest] eqn:Hm; [discriminate |].
  assert (Hf : In first (members k l)) by (rewrite Hm; now left).
  apply List.filter_In in Hf as [Hf Hkey]. apply String.eqb_eq in Hkey.
  apply elem_of_list_to_set, list_elem_of_fmap. exists first.
  split; [now symmetry | now apply list_elem_of_In].
Qed.

Lemma sum_part_le (f : Session.t -> bool) (l : list Session.t) :
  List.Forall (fun s => 0 <= Session.durationSeconds s) l ->
  0 <= sumSeconds (List.filter f l) <= sumSeconds l.
Proof.
  induction 1 as [|s l Hs _ IH]; [simpl; lia |].
  cbn [List.filter]. destruct (f s); cbn [sumSeconds fold_right];
    fold (sumSeconds (List.filter f l)); fold (sumSeconds l); lia.
Qed.

(** X18: on a list whose durations are non-negative and add up to a safe
    integer, today's sessions are exactly the sessions of the list whose
    stamp falls on today's date, in their order; the seconds of today are
    the sum of their durations, which is not negative and not above the
    sum over the whole list; the number of tasks of today is at most the
    number of today's sessions, is zero exactly when there is none, and
    is never below the number of groups that the task averages would show
    for them. *)
Theorem today_figures (l : list Session.t) :
  safeDurations l ->
  (forall s, In s (todaysSessions toDateString todayStr l)
             <-> In s l /\ toDateString (Session.createdAt s) = todayStr)
  /\ sublist (todaysSessions toDateString todayStr l) l
  /\ totalSecondsToday toDateString todayStr l
     = sumSeconds (todaysSessions toDateString todayStr l)
  /\ 0 <= totalSecondsToday toDateString todayStr l <= sumSeconds l
  /\ (tasksTodayCount toDateString todayStr l
      <= length (todaysSessions toDateString todayStr l))%nat
  /\ (tasksTodayCount toDateString todayStr l = 0%nat
      <-> todaysSessions toDateString todayStr l = [])
  /\ (size (taskStatsMap (todaysSessions toDateString todayStr l))
      <= tasksTodayCount toDateString todayStr l)%nat.
Proof.
  intros [Hpos _].
  split.
  { intros s. unfold todaysSessions. rewrite List.filter_In.
    now rewrite String.eqb_eq. }
  unfold totalSecondsToday, tasksTodayCount.
  rewrite sum_from, Z.add_0_l.
  split.
  { unfold todaysSessions. clear. induction l as [|s l IH]; [constructor |].
    cbn [List.filter]. destruct (String.eqb _ _); now constructor. }
  split; [reflexivity |].
  split; [apply sum_part_le, Hpos |].
  set (today := todaysSessions toDateString todayStr l).
  change (map (fun s => toLowerCase (Session.note s)) today) with (map keyOf today).
  split; [rewrite <- (length_map keyOf today); apply size_keys_le |].
  split.
  { split.
    - intros Hz. apply size_empty_iff in Hz.
      destruct today as [|s r]; [reflexivity |].
      exfalso. cbn [map] in Hz. rewrite list_to_set_cons in Hz.
      set_solver.
    - intros ->. reflexivity. }
  rewrite <- size_dom. apply subseteq_size, dom_groups.
Qed.

End TodayFacts.

(** ** Ids under a clock that moves forward *)

Section MonotoneClock.
Context `{Json}.

Lemma keepOthers_ids_nodup i l :
  List.NoDup (map Session.id l) -> List.NoDup (map Session.id (keepOthers i l)).
Proof.
  induction l as [|s l IH]; [auto |]. cbn [map keepOthers List.filter].
  intros Hnd. apply List.NoDup_cons_iff in Hnd as [Hs Hnd].
  destruct (negb (Session.id s =? i)); [| now apply IH].
  cbn [map]. apply List.NoDup_cons; [| now apply IH].
  intros Hin. apply Hs. apply List.in_map_iff in Hin as (x & Ex & Hx).
  apply List.filter_In in Hx as [Hx _]. apply List.in_map_iff. eauto.
Qed.

Lemma keepOthers_ids_before i l future :
  before (map Session.id l) future -> before (map Session.id (keepOthers i l)) future.
Proof.
  unfold before. induction l as [|s l IH]; [auto |]. cbn [map keepOthers List.filter].
  intros Hb. apply Forall_cons in Hb as [Hs Hb].
  destruct (negb (Session.id s =? i)); [| now apply IH].
  cbn [map]. apply Forall_cons. split; [assumption | now apply IH].
Qed.

Lemma before_tail ids c future : before ids (c :: future) -> before ids future.
Proof.
  unfold before. intros Hb. eapply Forall_impl; [exact Hb |].
  intros i Hi. now apply Forall_cons in Hi as [_ Hi].
Qed.

Lemma before_head ids c future : before ids (c :: future) -> ~ In c ids.
Proof.
  unfold before. intros Hb Hin. apply list_elem_of_In in Hin.
  apply (proj1 (Forall_forall _ _)) with (x := c) in Hb; [| assumption].
  apply Forall_cons in Hb as [Hlt _]. lia.
Qed.

Lemma save_zero_world (w : World) now iso :
  seconds (st w) = 0 -> dispatch w (Save now iso) = w.
Proof.
  intros Hzero. unfold dispatch. destruct w as [s d a]. simpl in *.
  destruct a; [| reflexivity].
  unfold handleSaveSession. rewrite Hzero. simpl.
  unfold commit, begin, samePrimitives. simpl.
  rewrite Z.eqb_refl, eqb_reflx, !String.eqb_refl. reflexivity.
Qed.

(** One action keeps: the component mounted, the records well formed,
    the ids pairwise distinct and earlier than the clock readings still
    to come. *)
Lemma step_ids (w : World) (a : action) (acts : list action) (l : list Session.t) :
  alive w = true -> 0 <= seconds (st w) ->
  sessions (st w) = Session.listToJs l ->
  List.NoDup (map Session.id l) ->
  rising (clocks (a :: acts)) ->
  before (map Session.id l) (clocks (a :: acts)) ->
  alive (dispatch w a) = true /\ 0 <= seconds (st (dispatch w a))
  /\ exists l', sessions (st (dispatch w a)) = Session.listToJs l'
                /\ List.NoDup (map Session.id l')
                /\ rising (clocks acts)
                /\ before (map Session.id l') (clocks acts).
Proof.
  intros Ha Hs Hl Hnd Hsorted Hbefore.
  assert (Hsec : 0 <= seconds (st (dispatch w a))).
  { destruct (dispatch_st w a Ha) as (Es & _).
    destruct (handler_timer a (st w) (disk w)) as (Es' & _).
    rewrite Es, Es'. destruct a; cbn [secondsAfter]; try lia.
    destruct (isRunning (st w)); lia. }
  assert (Hkeep : forall a', a = a' -> clocks (a' :: acts) = clocks acts ->
            sessions (next (snd (handler a' (st w) (begin (st w) (disk w))))) = sessions (st w) ->
            failed (snd (handler a' (st w) (begin (st w) (disk w)))) = false ->
            alive (dispatch w a) = true /\ 0 <= seconds (st (dispatch w a))
            /\ exists l', sessions (st (dispatch w a)) = Session.listToJs l'
                          /\ List.NoDup (map Session.id l')
                          /\ rising (clocks acts)
                          /\ before (map Session.id l') (clocks acts)).
  { intros a' -> Ec En Ef. rewrite Ec in Hsorted, Hbefore.
    destruct (dispatch_st w a' Ha) as (_ & _ & _ & _ & Ess).
    split; [| split; [exact Hsec |]].
    - unfold dispatch. rewrite Ha. apply commit_alive; [exact Ef |].
      rewrite (renders_same_sessions _ (st w) En). now apply (renders_records _ l).
    - exists l. rewrite Ess, En. auto. }
  destruct a.
  1-3, 5, 9: (apply (Hkeep _ eq_refl); reflexivity).
  - apply (Hkeep _ eq_refl); [reflexivity | |];
      cbn [handler]; destruct (isRunning (st w)); reflexivity.
  - cbn [clocks flat_map] in Hsorted, Hbefore. cbn [app] in Hsorted, Hbefore.
    fold (clocks acts) in Hsorted, Hbefore.
    destruct (Z.eq_dec (seconds (st w)) 0) as [E|E].
    + rewrite save_zero_world by assumption.
      split; [exact Ha |]. split; [exact Hs |]. exists l.
      split; [exact Hl |]. split; [exact Hnd |].
      split; [now destruct Hsorted as [_ ?] |].
      now apply before_tail in Hbefore.
    + destruct (save_world_records w now iso l Ha E Hl) as (E1 & _ & E3).
      split; [exact E3 |]. split; [exact Hsec |].
      exists (savedSession now iso (st w) :: l). split; [exact E1 |].
      destruct Hsorted as [Hnow Hsorted].
      split; [| split; [exact Hsorted |]].
      * cbn [map savedSession Session.id]. apply List.NoDup_cons; [| exact Hnd].
        now apply before_head in Hbefore.
      * cbn [map savedSession Session.id]. unfold before. apply Forall_cons. split.
        -- exact Hnow.
        -- now apply before_tail in Hbefore.
  - rewrite (delete_world_records w id l Ha Hl). cbn [alive st sessions seconds].
    split; [reflexivity |]. split; [exact Hs |].
    exists (keepOthers id l). split; [reflexivity |].
    split; [now apply keepOthers_ids_nodup |]. split; [exact Hsorted |].
    now apply keepOthers_ids_before.
  - rewrite clearAll_world by assumption. cbn [alive st sessions seconds].
    split; [reflexivity |]. split; [exact Hs |].
    exists []. split; [reflexivity |]. split; [constructor |].
    split; [exact Hsorted | constructor].
Qed.

Lemma run_ids (acts : list action) : forall (w : World) (l : list Session.t),
  alive w = true -> 0 <= seconds (st w) ->
  sessions (st w) = Session.listToJs l ->
  List.NoDup (map Session.id l) ->
  rising (clocks acts) ->
  before (map Session.id l) (clocks acts) ->
  exists l', sessions (st (runActions w acts)) = Session.listToJs l'
             /\ List.NoDup (map Session.id l').
Proof.
  induction acts as [|a acts IH]; intros w l Ha Hs Hl Hnd Hsorted Hbefore; [eauto |].
  destruct (step_ids w a acts l Ha Hs Hl Hnd Hsorted Hbefore)
    as (Ha' & Hs' & l' & Hl' & Hnd' & Hsorted' & Hbefore').
  simpl. now apply (IH _ l').
Qed.

(** X19: in a run that starts with nothing taken from the store, if every
    save reads a later clock value than the saves before it, the ids of
    the session list are pairwise distinct. *)
Theorem ids_distinct_under_rising_clock (d : Storage) (acts : list action) :
  items d !! sessionsKey = None ->
  rising (clocks acts) ->
  exists l, sessions (st (runActions (mount d) acts)) = Session.listToJs l
            /\ List.NoDup (map Session.id l).
Proof.
  intros Hd Hsorted.
  assert (L : loadedSessions d = None) by (apply nothing_loaded; now (right; left)).
  destruct (mount_recovers d L) as (Es & Ha).
  apply (run_ids acts (mount d) []); try assumption.
  - rewrite mount_world, L. reflexivity.
  - constructor.
  - constructor.
Qed.

End MonotoneClock.

Lemma ids_distinct_under_rising_clock_witness :
  (items emptyStorage !! sessionsKey = None /\ rising (clocks risingRun))
  /\ exists l,
      sessions (st (@runActions Sample.json (@mount Sample.json emptyStorage) risingRun))
      = Session.listToJs l
      /\ List.NoDup (map Session.id l).
Proof.
  assert (Hr : rising (clocks risingRun)).
  { cbn. unfold instant. repeat split; repeat constructor; lia. }
  split; [split; [reflexivity | exact Hr] |].
  apply (@ids_distinct_under_rising_clock Sample.json emptyStorage risingRun eq_refl Hr).
Defined.

(** A list with two stamps of the first of January and one of the
    second, read on the first: two sessions, 180 seconds, one task. *)
Example today_sample :
  todaysSessions datePart "2024-01-01" twoDays = readExample
  /\ totalSecondsToday datePart "2024-01-01" twoDays = 180
  /\ tasksTodayCount datePart "2024-01-01" twoDays = 1%nat.
Proof. repeat split; vm_compute; reflexivity. Qed.

Lemma today_figures_witness :
  safeDurations twoDays
  /\ (forall s, In s (todaysSessions datePart "2024-01-01" twoDays)
                <-> In s twoDays /\ datePart (Session.createdAt s) = "2024-01-01")
  /\ 0 <= totalSecondsToday datePart "2024-01-01" twoDays <= 780.
Proof.
  assert (Hs : safeDurations twoDays).
  { split; [repeat constructor; simpl; lia | vm_compute; discriminate]. }
  split; [exact Hs |].
  destruct (today_figures datePart "2024-01-01" twoDays Hs) as (Hin & _ & _ & Hb & _).
  split; [exact Hin | exact Hb].
Defined.
